(** * Cash flow minimizer: a shallow embedding of [cash_flow_minimizer.cpp]

    The development follows the source file top to bottom: the [Person]
    class, the input stream the program reads from, the phases of
    [CashFlowMinimizer::run] ([readParticipants], [readTransactions],
    [computeNetBalances], [settleDebts], [printResults]) and [main].  The
    notions the specification speaks of come next, then the lemmas about
    each phase, and last the properties of the specification, one theorem
    per claim (C1 to C10), followed by further properties of the program
    (X1 to X16).

    Modelling conventions.
    - [int] is modelled by [Z].  Signed overflow is undefined behaviour in
      C++, so the model describes the executions in which no [int]
      overflows; nothing below relies on a wrapped value.
    - [std::vector] is a [list] indexed with stdpp's lookup; an index out of
      range, and the dereference of an [end()] iterator, are undefined
      behaviour and are modelled by the outcome [Undefined].
    - [std::set<string>] is a [gset string]; its iteration order (used by
      [begin()] and [front()]) is the lexicographic order of [std::string],
      modelled by [set_begin].
    - [std::unordered_map<string,int>] is a [gmap string nat].
    - the prompts written to [cout] are not modelled; the settlement plan
      is the field [result_], and the table written from it is the text
      [printResults] returns.  [cout << int] writes the number in decimal
      (stdpp's [pretty]).
    - the loop of [settleDebts] is run with a bound on the number of
      rounds ([fuel]); a run that is still in the loop after [fuel] rounds
      yields [None]. *)

From Stdlib Require Import ZArith Lia OrdersEx Ascii.
From stdpp Require Import gmap strings list fin_maps pretty.

#[local] Set Warnings "-clear-no-such-hyp".
Local Open Scope Z_scope.

(** ** Outcomes of a computation *)

(** A phase of the program either completes with a value, throws a
    [std::runtime_error] carrying a message, or runs into undefined
    behaviour. *)
Inductive outcome (A : Type) : Type :=
| Ok (a : A)
| Throw (what : string)
| Undefined.

Arguments Ok {A} a.
Arguments Throw {A} what.
Arguments Undefined {A}.

(** Sequencing, with stdpp's notation [x ← m; k]. *)
#[global] Instance outcome_bind : MBind outcome := fun A B f m =>
  match m with
  | Ok a => f a
  | Throw w => Throw w
  | Undefined => Undefined
  end.

(** [for (int i = start; i < start + count; ++i) body], threading the state
    [s] through the iterations. *)
Fixpoint for_ {S : Type} (start : nat) (count : nat)
    (body : nat -> S -> outcome S) (s : S) : outcome S :=
  match count with
  | O => Ok s
  | Datatypes.S c => s' ← body start s; for_ (Datatypes.S start) c body s'
  end.

(** [for (auto& x : range) body]. *)
Fixpoint for_each {A S : Type} (range : list A)
    (body : A -> S -> outcome S) (s : S) : outcome S :=
  match range with
  | [] => Ok s
  | x :: rest => s' ← body x s; for_each rest body s'
  end.

(** [v[i]] on a vector: undefined behaviour out of range. *)
Definition at_ {A : Type} (v : list A) (i : nat) : outcome A :=
  match v !! i with
  | Some x => Ok x
  | None => Undefined
  end.

(** ** Sets of payment identifiers *)

(** [std::string::operator<]. *)
Definition str_lt (a b : string) : bool :=
  match String_as_OT.compare a b with
  | Lt => true
  | _ => false
  end.

(** The element an iterator at [begin()] points to: the least element of
    the set, [None] when the set is empty ([begin() == end()]). *)
Definition least (u : string) (acc : option string) : option string :=
  match acc with
  | None => Some u
  | Some v => if str_lt u v then Some u else Some v
  end.

Definition set_begin (s : gset string) : option string :=
  foldr least None (elements s).

(** [*s.begin()]: dereferencing [end()] is undefined behaviour. *)
Definition deref_begin (s : gset string) : outcome string :=
  match set_begin s with
  | Some u => Ok u
  | None => Undefined
  end.

(** ** class Person *)

Record Person : Type := mkPerson {
  name_ : string;
  balance_ : Z;
  upis_ : gset string
}.

(** [Person(string name) : name_(move(name)), balance_(0) {}] *)
Definition newPerson (name : string) : Person :=
  {| name_ := name; balance_ := 0; upis_ := ∅ |}.

Definition addUPI (upi : string) (p : Person) : Person :=
  {| name_ := name_ p; balance_ := balance_ p; upis_ := {[ upi ]} ∪ upis_ p |}.

Definition adjustBalance (amount : Z) (p : Person) : Person :=
  {| name_ := name_ p; balance_ := balance_ p + amount; upis_ := upis_ p |}.

(** ** The input stream *)

(** [cin] is a sequence of blank-separated tokens.  A token carries its text
    (what [cin >> string] extracts) and the number [cin >> int] extracts
    from it, [None] when the extraction fails.  An extraction of an [int]
    consumes a whole token. *)
Record token : Type := mkToken {
  text : string;
  as_int : option Z
}.

(** The stream: the tokens not yet consumed and the negation of its
    fail bit.  The program never clears the fail bit. *)
Record istream : Type := mkStream {
  toks : list token;
  good : bool
}.

(** [cin >> s] for a freshly constructed [string s]: on failure [s] stays
    empty. *)
Definition get_word (cin : istream) : string * istream :=
  if good cin then
    match toks cin with
    | [] => (EmptyString, mkStream [] false)
    | t :: rest => (text t, mkStream rest true)
    end
  else (EmptyString, cin).

(** [cin >> k] for an [int k]; [None] when the extraction fails (the stream
    is then no longer good). *)
Definition get_int (cin : istream) : option Z * istream :=
  if good cin then
    match toks cin with
    | [] => (None, mkStream [] false)
    | t :: rest =>
        match as_int t with
        | Some z => (Some z, mkStream rest true)
        | None => (None, mkStream (t :: rest) false)
        end
    end
  else (None, cin).

(** ** class CashFlowMinimizer *)

Definition Transfer : Type := (nat * nat * Z * string)%type.

Record CashFlowMinimizer : Type := mkCFM {
  n_ : Z;
  people_ : list Person;
  idx_ : gmap string nat;
  debtMatrix_ : list (list Z);
  result_ : list Transfer
}.

(** [CashFlowMinimizer()]: value-initialisation zeroes [n_] and leaves the
    containers empty. *)
Definition initial : CashFlowMinimizer :=
  {| n_ := 0; people_ := []; idx_ := ∅; debtMatrix_ := []; result_ := [] |}.

Definition with_people (ps : list Person) (st : CashFlowMinimizer) : CashFlowMinimizer :=
  {| n_ := n_ st; people_ := ps; idx_ := idx_ st;
     debtMatrix_ := debtMatrix_ st; result_ := result_ st |}.

Definition with_matrix (m : list (list Z)) (st : CashFlowMinimizer) : CashFlowMinimizer :=
  {| n_ := n_ st; people_ := people_ st; idx_ := idx_ st;
     debtMatrix_ := m; result_ := result_ st |}.

Definition emplace_result (t : Transfer) (st : CashFlowMinimizer) : CashFlowMinimizer :=
  {| n_ := n_ st; people_ := people_ st; idx_ := idx_ st;
     debtMatrix_ := debtMatrix_ st; result_ := result_ st ++ [t] |}.

(** [people_[i].adjustBalance(amount)] *)
Definition adjust (i : nat) (amount : Z) (st : CashFlowMinimizer) : outcome CashFlowMinimizer :=
  p ← at_ (people_ st) i;
  Ok (with_people (<[ i := adjustBalance amount p ]> (people_ st)) st).

(** *** readParticipants *)

(** [while (k--) { string u; cin >> u; people_.back().addUPI(u); }] *)
Fixpoint readUPIs (k : nat) (st : CashFlowMinimizer) (cin : istream)
    : CashFlowMinimizer * istream :=
  match k with
  | O => (st, cin)
  | Datatypes.S k' =>
      let '(u, cin') := get_word cin in
      let back := pred (length (people_ st)) in
      readUPIs k' (with_people (alter (addUPI u) back (people_ st)) st) cin'
  end.

(** [people_.emplace_back(name); idx_[name] = i;] *)
Definition emplace_person (name : string) (i : nat) (st : CashFlowMinimizer)
    : CashFlowMinimizer :=
  {| n_ := n_ st; people_ := people_ st ++ [newPerson name];
     idx_ := <[ name := i ]> (idx_ st);
     debtMatrix_ := debtMatrix_ st; result_ := result_ st |}.

(** The body of the registration loop, for participant [i]. *)
Definition registerParticipant (i : nat) (s : CashFlowMinimizer * istream)
    : outcome (CashFlowMinimizer * istream) :=
  let '(st, cin) := s in
  let '(name, cin) := get_word cin in
  let '(ok, cin) := get_int cin in
  match ok with
  | None => Throw "Invalid entry."
  | Some k =>
      if k <? 0 then Throw "Invalid entry."
      else
        Ok (readUPIs (Z.to_nat k) (emplace_person name i st) cin)
  end.

(** [for (auto& u : people_[i].upis()) people_[0].addUPI(u);]  The order in
    which the elements are visited does not matter to the set built. *)
Definition shareUPIs (i : nat) (st : CashFlowMinimizer) : outcome CashFlowMinimizer :=
  p ← at_ (people_ st) i;
  for_each (elements (upis_ p))
    (fun u st' =>
       t ← at_ (people_ st') 0%nat;
       Ok (with_people (<[ 0%nat := addUPI u t ]> (people_ st')) st'))
    st.

Definition readParticipants (st : CashFlowMinimizer) (cin : istream)
    : outcome (CashFlowMinimizer * istream) :=
  let '(on, cin) := get_int cin in
  (* when the extraction fails n_ is 0: the value the extraction stores for a
     token that is not a number, and the value n_ has from the
     value-initialisation of the object when the input has ended *)
  let n := default 0 on in
  if n <? 2 then Throw "At least 2 participants required."
  else
    let st := {| n_ := n; people_ := people_ st; idx_ := idx_ st;
                 debtMatrix_ := replicate (Z.to_nat n) (replicate (Z.to_nat n) 0);
                 result_ := result_ st |} in
    '(st, cin) ← for_ 0 (Z.to_nat n) registerParticipant (st, cin);
    st ← for_ 1 (Z.to_nat n - 1) shareUPIs st;
    Ok (st, cin).

(** *** readTransactions *)

(** [debtMatrix_[i][j] += a] *)
Definition add_debt (i j : nat) (a : Z) (st : CashFlowMinimizer) : outcome CashFlowMinimizer :=
  row ← at_ (debtMatrix_ st) i;
  v ← at_ row j;
  Ok (with_matrix (<[ i := <[ j := v + a ]> row ]> (debtMatrix_ st)) st).

(** One iteration of [while (m--)]: read and record one debt.
    [idx_.count(d) == 0] is [idx_ !! d = None]. *)
Definition readDebt (s : CashFlowMinimizer * istream)
    : outcome (CashFlowMinimizer * istream) :=
  let '(st, cin) := s in
  let '(d, cin) := get_word cin in
  let '(c, cin) := get_word cin in
  let '(oa, cin) := get_int cin in
  match oa with
  | None => Throw "Invalid debt entry."
  | Some a =>
      if a <=? 0 then Throw "Invalid debt entry."
      else
        match idx_ st !! d, idx_ st !! c with
        | Some i, Some j => st' ← add_debt i j a st; Ok (st', cin)
        | _, _ => Throw "Invalid debt entry."
        end
  end.

Definition readTransactions (st : CashFlowMinimizer) (cin : istream)
    : outcome (CashFlowMinimizer * istream) :=
  let '(om, cin) := get_int cin in
  match om with
  | None => Throw "Invalid number."
  | Some m =>
      if m <? 0 then Throw "Invalid number."
      else for_ 0 (Z.to_nat m) (fun _ => readDebt) (st, cin)
  end.

(** *** computeNetBalances *)

(** [people_[i].adjustBalance(debtMatrix_[j][i] - debtMatrix_[i][j])] *)
Definition netStep (i j : nat) (st : CashFlowMinimizer) : outcome CashFlowMinimizer :=
  rowj ← at_ (debtMatrix_ st) j;
  dji ← at_ rowj i;
  rowi ← at_ (debtMatrix_ st) i;
  dij ← at_ rowi j;
  adjust i (dji - dij) st.

Definition computeNetBalances (st : CashFlowMinimizer) : outcome CashFlowMinimizer :=
  for_ 0 (Z.to_nat (n_ st))
    (fun i st' => for_ 0 (Z.to_nat (n_ st)) (fun j st'' => netStep i j st'') st')
    st.

(** *** getMaxCreditor, getMaxDebtor *)

(** [std::min_element] and [std::max_element] keep the first of several
    equivalent extremes; [i] is the position of the head of [l], [bi] and
    [b] the position and value of the extreme found so far. *)
Fixpoint min_element_from {A : Type} (comp : A -> A -> bool)
    (l : list A) (i : nat) (bi : nat) (b : A) : nat :=
  match l with
  | [] => bi
  | x :: rest =>
      if comp x b then min_element_from comp rest (S i) i x
      else min_element_from comp rest (S i) bi b
  end.

Definition min_element {A : Type} (comp : A -> A -> bool) (l : list A) : nat :=
  match l with
  | [] => 0%nat
  | x :: rest => min_element_from comp rest 1 0 x
  end.

Fixpoint max_element_from {A : Type} (comp : A -> A -> bool)
    (l : list A) (i : nat) (bi : nat) (b : A) : nat :=
  match l with
  | [] => bi
  | x :: rest =>
      if comp b x then max_element_from comp rest (S i) i x
      else max_element_from comp rest (S i) bi b
  end.

Definition max_element {A : Type} (comp : A -> A -> bool) (l : list A) : nat :=
  match l with
  | [] => 0%nat
  | x :: rest => max_element_from comp rest 1 0 x
  end.

(** [[](auto& a, auto& b){ return a.balance() < b.balance(); }] *)
Definition less_balance (a b : Person) : bool := balance_ a <? balance_ b.

Definition getMaxCreditor (st : CashFlowMinimizer) : nat :=
  max_element less_balance (people_ st).

Definition getMaxDebtor (st : CashFlowMinimizer) : nat :=
  min_element less_balance (people_ st).

(** *** findSettlement *)

(** [numeric_limits<int>::min()] *)
Definition INT_MIN : Z := - 2 ^ 31.

(** The loop body of [findSettlement]; the state is
    [(bestCred, bestBal, via)].  [common] is the output of
    [std::set_intersection], [common.front()] its least element. *)
Definition findStep (st : CashFlowMinimizer) (debtor : nat) (i : nat)
    (best : Z * Z * string) : outcome (Z * Z * string) :=
  let '(bestCred, bestBal, via) := best in
  p ← at_ (people_ st) i;
  if balance_ p <=? 0 then Ok best
  else
    pd ← at_ (people_ st) debtor;
    let common := upis_ pd ∩ upis_ p in
    match set_begin common with
    | Some front =>
        if bestBal <? balance_ p then Ok (Z.of_nat i, balance_ p, front)
        else Ok best
    | None => Ok best
    end.

Definition findSettlement (st : CashFlowMinimizer) (debtor : nat) : outcome (Z * Z * string) :=
  '(bestCred, bestBal, via) ←
    for_ 0 (Z.to_nat (n_ st)) (findStep st debtor) (-1, INT_MIN, EmptyString);
  Ok (bestCred, if 0 <=? bestCred then bestBal else 0, via).

(** *** settleDebts *)

(** [updateSettled()] leaves in [settledCount] the number of participants
    whose balance is zero.  The vector [settled] is written but never
    read, so it is left out of the state. *)
Definition settledCount (st : CashFlowMinimizer) : outcome Z :=
  for_ 0 (Z.to_nat (n_ st))
    (fun i cnt => p ← at_ (people_ st) i;
                  Ok (if balance_ p =? 0 then cnt + 1 else cnt))
    0.

(** The direct branch: one transfer from the debtor to the creditor found. *)
Definition settleDirect (d : nat) (amtToPay : Z) (cBalance : nat) (bal : Z)
    (via : string) (st : CashFlowMinimizer) : outcome CashFlowMinimizer :=
  let transfer := Z.min amtToPay bal in
  let st := emplace_result (d, cBalance, transfer, via) st in
  st ← adjust d transfer st;
  adjust cBalance (- transfer) st.

(** The fallback branch, first transfer: debtor to Treasurer. *)
Definition payTreasurer (d : nat) (amtToPay : Z) (st : CashFlowMinimizer)
    : outcome CashFlowMinimizer :=
  let t := 0%nat in
  pd ← at_ (people_ st) d;
  u ← deref_begin (upis_ pd);
  let st := emplace_result (d, t, amtToPay, u) st in
  st ← adjust t amtToPay st;
  adjust d amtToPay st.

(** The fallback branch, second transfer: Treasurer to the highest
    creditor. *)
Definition payHighestCreditor (st : CashFlowMinimizer) : outcome CashFlowMinimizer :=
  let t := 0%nat in
  let fc := getMaxCreditor st in
  pt ← at_ (people_ st) t;
  let tamt := balance_ pt in
  pfc ← at_ (people_ st) fc;
  u ← deref_begin (upis_ pfc);
  let st := emplace_result (t, fc, tamt, u) st in
  st ← adjust fc (- tamt) st;
  adjust t (- tamt) st.

Definition settleFallback (d : nat) (amtToPay : Z) (st : CashFlowMinimizer)
    : outcome CashFlowMinimizer :=
  st ← payTreasurer d amtToPay st;
  payHighestCreditor st.

(** The body of [while (settledCount < n_)], up to the call of
    [updateSettled]. *)
Definition settleRound (st : CashFlowMinimizer) : outcome CashFlowMinimizer :=
  let d := getMaxDebtor st in
  pd ← at_ (people_ st) d;
  let amtToPay := - balance_ pd in
  '(cBalance, bal, via) ← findSettlement st d;
  if 0 <=? cBalance
  then settleDirect d amtToPay (Z.to_nat cBalance) bal via st
  else settleFallback d amtToPay st.

(** The loop of [settleDebts], run for at most [fuel] rounds: [Some st] when
    the loop has exited within that many rounds, [None] when it is still
    running after them. *)
Fixpoint settleLoop (fuel : nat) (st : CashFlowMinimizer)
    : outcome (option CashFlowMinimizer) :=
  cnt ← settledCount st;
  if cnt <? n_ st then
    match fuel with
    | O => Ok None
    | S fuel' => st' ← settleRound st; settleLoop fuel' st'
    end
  else Ok (Some st).

Definition settleDebts := settleLoop.

(** *** run *)

(** [run()] up to [printResults], on the input [input], with at most [fuel]
    rounds of settlement. *)
Definition run (fuel : nat) (input : list token) : outcome (option CashFlowMinimizer) :=
  '(st, cin) ← readParticipants initial (mkStream input true);
  '(st, cin) ← readTransactions st cin;
  st ← computeNetBalances st;
  settleDebts fuel st.

(** *** printResults *)

(** ["\n"] *)
Definition nl : string := String "010"%char EmptyString.

(** [cout << left << setw(w) << s]: [s], then spaces up to the width [w];
    a longer [s] is written in full. *)
Definition setw_left (w : nat) (s : string) : string :=
  s +:+ String.string_of_list_ascii (replicate (w - String.length s) " "%char).

(** [string(50, '-')] *)
Definition rule : string := String.string_of_list_ascii (replicate 50 "-"%char).

(** One row of the table; [cout << a] writes the [int] in decimal. *)
Definition printRow (st : CashFlowMinimizer) (t : Transfer) : outcome string :=
  let '(d, c, a, u) := t in
  pd ← at_ (people_ st) d;
  pc ← at_ (people_ st) c;
  Ok (setw_left 15 (name_ pd) +:+ setw_left 15 (name_ pc)
      +:+ setw_left 8 (pretty a) +:+ u +:+ nl).

(** The text [printResults] writes to [cout]. *)
Definition printResults (st : CashFlowMinimizer) : outcome string :=
  for_each (result_ st)
    (fun t out => row ← printRow st t; Ok (out +:+ row))
    (nl +:+ "=== Settlement Summary ===" +:+ nl
     +:+ setw_left 15 "Payer" +:+ setw_left 15 "Payee" +:+ setw_left 8 "Amount"
     +:+ "UPI" +:+ nl
     +:+ rule +:+ nl).

(** ** main *)


(** The settlement plan and the balances of a final state. *)
Definition balances (st : CashFlowMinimizer) : list Z := balance_ <$> people_ st.

(** Tokens for the inputs written out below: a word that is not a number,
    and a number (its text is never read in these inputs). *)
Definition word (s : string) : token := mkToken s None.
Definition num (z : Z) : token := mkToken EmptyString (Some z).

(** Treasurer T (A), P1 (B), P2 (C); P1 owes P2 7. *)
Definition scenario_fallback : list token :=
  [ num 3; word "T"; num 1; word "A"; word "P1"; num 1; word "B";
    word "P2"; num 1; word "C"; num 1; word "P1"; word "P2"; num 7 ].

(** ** Notions used by the specification *)

(** [debt[i][j]], zero outside the matrix. *)
Definition entry (m : list (list Z)) (i j : nat) : Z :=
  default 0 (row ← m !! i; row !! j).

(** [Σ_{j < n} f j] *)
Fixpoint sum_upto (n : nat) (f : nat -> Z) : Z :=
  match n with
  | O => 0
  | S k => sum_upto k f + f k
  end.

(** An [n]-by-[n] matrix. *)
Definition square (n : nat) (m : list (list Z)) : Prop :=
  length m = n /\ Forall (fun row => length row = n) m.

(** [Σ_j debt[j][i] − Σ_j debt[i][j]] *)
Definition net (m : list (list Z)) (n i : nat) : Z :=
  sum_upto n (fun j => entry m j i) - sum_upto n (fun j => entry m i j).

(** The same sums with the diagonal left out. *)
Definition net_off_diagonal (m : list (list Z)) (n i : nat) : Z :=
  sum_upto n (fun j => if decide (j = i) then 0 else entry m j i)
  - sum_upto n (fun j => if decide (j = i) then 0 else entry m i j).


(** The registry after the first [k] iterations of the outer loop. *)
Definition netted (m : list (list Z)) (n k : nat) (ps : list Person) : list Person :=
  imap (fun i p => if decide (i < k)%nat then adjustBalance (net m n i) p else p) ps.

(** The registry as the reading phase leaves it: [n] participants with
    zero balance, an [n]-by-[n] matrix, and indices below [n]. *)
Definition registered (n : nat) (st : CashFlowMinimizer) : Prop :=
  n_ st = Z.of_nat n /\ length (people_ st) = n /\ square n (debtMatrix_ st)
  /\ map_Forall (fun _ i => (i < n)%nat) (idx_ st)
  /\ Forall (fun p => balance_ p = 0) (people_ st).

(** Well-formed input.  [participants n ts names]: the tokens [ts] spell [n]
    participant entries, each a name, a count [k >= 0] and [k]
    identifiers; [names] are the names in order. *)
Inductive participants : nat -> list token -> list string -> Prop :=
| participants_nil : participants 0 [] []
| participants_cons (n : nat) (tn tk : token) (tus ts : list token) (names : list string) :
    as_int tk = Some (Z.of_nat (length tus)) ->
    participants n ts names ->
    participants (S n) (tn :: tk :: tus ++ ts) (text tn :: names).

(** [debts names m ts]: the tokens [ts] spell [m] debt records, each a
    registered debtor, a registered creditor and a positive amount. *)
Inductive debts (names : list string) : nat -> list token -> Prop :=
| debts_nil : debts names 0 []
| debts_cons (m : nat) (td tc ta : token) (a : Z) (ts : list token) :
    text td ∈ names -> text tc ∈ names ->
    as_int ta = Some a -> 0 < a ->
    debts names m ts ->
    debts names (S m) (td :: tc :: ta :: ts).

(** A participant count of at least 2, that many entries, a debt count and
    that many records; what follows is not read. *)
Definition well_formed (input : list token) : Prop :=
  exists (tn tm : token) (n m : nat) (tps tds rest : list token) (names : list string),
    input = tn :: tps ++ tm :: tds ++ rest
    /\ as_int tn = Some (Z.of_nat n) /\ (2 <= n)%nat
    /\ participants n tps names
    /\ as_int tm = Some (Z.of_nat m)
    /\ debts names m tds.

(** The Treasurer after [people_[0].addUPI(u)] for each [u] of [l]. *)
Definition absorb (l : list string) (t : Person) : Person :=
  foldl (fun t u => addUPI u t) t l.

(** The registry while the registration loop runs, [i] participants in. *)
Definition registering (i : nat) (st : CashFlowMinimizer) : Prop :=
  length (people_ st) = i
  /\ map_Forall (fun _ v => (v < i)%nat) (idx_ st)
  /\ Forall (fun p => balance_ p = 0) (people_ st).


(** Treasurer universality: the Treasurer (index 0) supports every
    identifier of every participant. *)
Definition treasurer_universal (ps : list Person) : Prop :=
  forall (t p : Person) (i : nat),
    ps !! 0%nat = Some t -> ps !! i = Some p -> upis_ p ⊆ upis_ t.

(** The registered names are exactly [names]. *)
Definition knows (st : CashFlowMinimizer) (names : list string) : Prop :=
  forall d, is_Some (idx_ st !! d) <-> d ∈ names.

(** The state [readParticipants] starts its loops from, on a fresh object. *)
Definition sized (n : Z) : CashFlowMinimizer :=
  {| n_ := n; people_ := []; idx_ := ∅;
     debtMatrix_ := replicate (Z.to_nat n) (replicate (Z.to_nat n) 0);
     result_ := [] |}.

(** The elementary writes the program performs once registration is over:
    [debtMatrix_[i][j] += a], [people_[i].adjustBalance(z)] and
    [result_.emplace_back(t)]. *)
Inductive mutation (st : CashFlowMinimizer) : CashFlowMinimizer -> Prop :=
| mutation_debt (i j : nat) (a : Z) (st' : CashFlowMinimizer) :
    add_debt i j a st = Ok st' -> mutation st st'
| mutation_balance (i : nat) (z : Z) (st' : CashFlowMinimizer) :
    adjust i z st = Ok st' -> mutation st st'
| mutation_result (t : Transfer) :
    mutation st (emplace_result t st).

(** [later st st']: the program can be in state [st'] at some point after
    it was in state [st]. *)
Definition later : relation CashFlowMinimizer := rtc mutation.

(** The identifier sets, participant by participant. *)
Definition channels (st : CashFlowMinimizer) : list (gset string) :=
  upis_ <$> people_ st.

(** An outcome that is an exception. *)
Definition raises {A : Type} (o : outcome A) : Prop := exists w, o = Throw w.

(** Participant [i] is a creditor the debtor [d] can pay directly through
    [u]: its balance is positive and both support [u]. *)
Definition payable (st : CashFlowMinimizer) (d i : nat) (u : string) : Prop :=
  exists p pd, people_ st !! i = Some p /\ people_ st !! d = Some pd
    /\ 0 < balance_ p /\ u ∈ upis_ pd /\ u ∈ upis_ p.

(** The state of the loop of [findSettlement] after the participants below
    [k]: nothing found and nobody below [k] payable, or a payable creditor
    with its balance and a shared identifier. *)
Definition found (st : CashFlowMinimizer) (d k : nat) (best : Z * Z * string) : Prop :=
  let '(bestCred, bestBal, via) := best in
  (bestCred = -1 /\ bestBal = INT_MIN
   /\ forall i u, (i < k)%nat -> ~ payable st d i u)
  \/ (exists c p, bestCred = Z.of_nat c /\ (c < k)%nat
        /\ people_ st !! c = Some p /\ bestBal = balance_ p
        /\ payable st d c via).

(** The registry a well-formed input leaves when reading is over, and the
    stream after it. *)
Definition registry_of (input : list token) : CashFlowMinimizer :=
  match readParticipants initial (mkStream input true) with
  | Ok (st, _) => st
  | _ => initial
  end.

Definition stream_of (input : list token) : istream :=
  match readParticipants initial (mkStream input true) with
  | Ok (_, cin) => cin
  | _ => mkStream input true
  end.

(** The state when netting is over and planning starts. *)
Definition prepared (input : list token) : outcome CashFlowMinimizer :=
  '(st, cin) ← readParticipants initial (mkStream input true);
  '(st, cin) ← readTransactions st cin;
  computeNetBalances st.

Definition planning_start (input : list token) : CashFlowMinimizer :=
  match prepared input with
  | Ok st => st
  | _ => initial
  end.


(** Three participants, one debt between two of them and one debt of a
    participant to itself. *)
Definition scenario_self_debt : list token :=
  [ num 3; word "T"; num 1; word "A"; word "P1"; num 1; word "B";
    word "P2"; num 1; word "C";
    num 2; word "P1"; word "P2"; num 7; word "P1"; word "P1"; num 4 ].

(** Treasurer T (A), P1 (A, B), P2 (B); P2 owes P1 10. *)
Definition scenario_direct : list token :=
  [ num 3; word "T"; num 1; word "A"; word "P1"; num 2; word "A"; word "B";
    word "P2"; num 1; word "B"; num 1; word "P2"; word "P1"; num 10 ].

(** Treasurer T (A), P1 (B), P2 (C); T owes P2 1 and P1 owes P2 7. *)
Definition scenario_stuck : list token :=
  [ num 3; word "T"; num 1; word "A"; word "P1"; num 1; word "B";
    word "P2"; num 1; word "C";
    num 2; word "T"; word "P2"; num 1; word "P1"; word "P2"; num 7 ].

(** Treasurer T and P, neither with an identifier; P owes T 5. *)
Definition scenario_no_upi : list token :=
  [ num 2; word "T"; num 0; word "P"; num 0; num 1; word "P"; word "T"; num 5 ].

Definition with_result (r : list Transfer) (st : CashFlowMinimizer) : CashFlowMinimizer :=
  {| n_ := n_ st; people_ := people_ st; idx_ := idx_ st;
     debtMatrix_ := debtMatrix_ st; result_ := r |}.

(** The state one round after planning starts. *)
Definition after_first_round (input : list token) : CashFlowMinimizer :=
  match settleRound (planning_start input) with
  | Ok st => st
  | _ => initial
  end.

(** The amount of a transfer. *)
Definition amount (t : Transfer) : Z := snd (fst t).


(** The number of participants whose balance is zero. *)
Definition zeros (ps : list Person) : nat :=
  length (filter (fun p => balance_ p = 0) ps).

(** Every participant is settled. *)
Definition all_settled (st : CashFlowMinimizer) : Prop :=
  Forall (fun p => balance_ p = 0) (people_ st).

(** The payer and the payee of a transfer both support its identifier. *)
Definition supported (st : CashFlowMinimizer) (t : Transfer) : Prop :=
  let '(payer, payee, _, u) := t in
  exists p q, people_ st !! payer = Some p /\ people_ st !! payee = Some q
    /\ u ∈ upis_ p /\ u ∈ upis_ q.

(** The state of the loop of [findSettlement] after the participants below
    [k], in full: nothing found, or the payable creditor with the greatest
    balance among those below [k], the first of them on a tie, with the
    least identifier it shares with the debtor. *)
Definition selected (st : CashFlowMinimizer) (d k : nat) (best : Z * Z * string) : Prop :=
  let '(bestCred, bestBal, via) := best in
  (bestCred = -1 /\ bestBal = INT_MIN /\ via = EmptyString
   /\ forall i u, (i < k)%nat -> ~ payable st d i u)
  \/ (exists c p pd, bestCred = Z.of_nat c /\ (c < k)%nat
        /\ people_ st !! c = Some p /\ people_ st !! d = Some pd
        /\ bestBal = balance_ p /\ 0 < balance_ p
        /\ set_begin (upis_ pd ∩ upis_ p) = Some via
        /\ forall i u q, (i < k)%nat -> payable st d i u -> people_ st !! i = Some q ->
             balance_ q <= balance_ p /\ ((i < c)%nat -> balance_ q < balance_ p)).




(** Treasurer T (A), P1 (A, B), P2 (A), P3 (A); P1 owes P2 5 and P3 5, and
    P2 owes T 2: everybody supports A. *)
Definition scenario_shared : list token :=
  [ num 4; word "T"; num 1; word "A"; word "P1"; num 2; word "A"; word "B";
    word "P2"; num 1; word "A"; word "P3"; num 1; word "A";
    num 3; word "P1"; word "P2"; num 5; word "P1"; word "P3"; num 5;
    word "P2"; word "T"; num 2 ].













(** Payer and payee of a transfer are indices below [n]. *)
Definition in_range (n : nat) (t : Transfer) : Prop :=
  let '(payer, payee, _, _) := t in (payer < n)%nat /\ (payee < n)%nat.


(** The state a run ends in, for runs known to end. *)
Definition finished (fuel : nat) (input : list token) : CashFlowMinimizer :=
  match run fuel input with
  | Ok (Some st) => st
  | _ => initial
  end.

(** [st'] differs from [st] in the balances at most, and in transfers
    added at the end of the plan. *)
Definition untouched (st st' : CashFlowMinimizer) : Prop :=
  n_ st' = n_ st /\ idx_ st' = idx_ st /\ debtMatrix_ st' = debtMatrix_ st
  /\ name_ <$> people_ st' = name_ <$> people_ st
  /\ upis_ <$> people_ st' = upis_ <$> people_ st
  /\ exists new, result_ st' = result_ st ++ new.

(** * Verification *)

(** ** Generic facts about loops and vectors *)

Lemma for_S {S : Type} (body : nat -> S -> outcome S) (count start : nat) (s : S) :
  for_ start (Datatypes.S count) body s
  = (s' ← body start s; for_ (Datatypes.S start) count body s').
Proof. reflexivity. Qed.

Lemma for_snoc {S : Type} (body : nat -> S -> outcome S) (count start : nat) (s : S) :
  for_ start (Datatypes.S count) body s
  = (s' ← for_ start count body s; body (start + count)%nat s').
Proof.
  revert start s. induction count as [|c IH]; intros start s.
  - simpl. replace (start + 0)%nat with start by lia.
    destruct (body start s); reflexivity.
  - rewrite (for_S body (Datatypes.S c) start s), (for_S body c start s).
    destruct (body start s) as [s1| |]; [| reflexivity | reflexivity].
    change (for_ (Datatypes.S start) (Datatypes.S c) body s1
            = (s' ← for_ (Datatypes.S start) c body s1; body (start + Datatypes.S c)%nat s')).
    rewrite IH. replace (start + Datatypes.S c)%nat with (Datatypes.S start + c)%nat by lia.
    reflexivity.
Qed.

Lemma at_Some {A : Type} (v : list A) (i : nat) (x : A) :
  v !! i = Some x -> at_ v i = Ok x.
Proof. unfold at_. intros ->. reflexivity. Qed.

Lemma at_Ok {A : Type} (v : list A) (i : nat) (x : A) :
  at_ v i = Ok x -> v !! i = Some x.
Proof. unfold at_. destruct (v !! i); congruence. Qed.

Lemma adjust_Some (i : nat) (z : Z) (st : CashFlowMinimizer) (p : Person) :
  people_ st !! i = Some p ->
  adjust i z st = Ok (with_people (<[ i := adjustBalance z p ]> (people_ st)) st).
Proof. intros H. unfold adjust. rewrite (at_Some _ _ _ H). reflexivity. Qed.

Lemma adjustBalance_twice (a b : Z) (p : Person) :
  adjustBalance b (adjustBalance a p) = adjustBalance (a + b) p.
Proof. unfold adjustBalance. simpl. f_equal. lia. Qed.

Lemma adjustBalance_zero (p : Person) : adjustBalance 0 p = p.
Proof. destruct p. unfold adjustBalance. simpl. f_equal. lia. Qed.

Lemma with_people_twice (ps qs : list Person) (st : CashFlowMinimizer) :
  with_people qs (with_people ps st) = with_people qs st.
Proof. reflexivity. Qed.

Lemma people_with_people (ps : list Person) (st : CashFlowMinimizer) :
  people_ (with_people ps st) = ps.
Proof. reflexivity. Qed.

Lemma matrix_with_people (ps : list Person) (st : CashFlowMinimizer) :
  debtMatrix_ (with_people ps st) = debtMatrix_ st.
Proof. reflexivity. Qed.

Lemma with_people_id (st : CashFlowMinimizer) : with_people (people_ st) st = st.
Proof. destruct st. reflexivity. Qed.

Lemma entry_Some (m : list (list Z)) (i j : nat) (row : list Z) (v : Z) :
  m !! i = Some row -> row !! j = Some v -> entry m i j = v.
Proof. intros Hi Hj. unfold entry. rewrite Hi. simpl. rewrite Hj. reflexivity. Qed.

Lemma square_lookup (n : nat) (m : list (list Z)) (i j : nat) :
  square n m -> (i < n)%nat -> (j < n)%nat ->
  exists row v, m !! i = Some row /\ row !! j = Some v.
Proof.
  intros [Hlen Hrows] Hi Hj.
  destruct (lookup_lt_is_Some_2 m i) as [row Hrow]; [lia|].
  assert (length row = n) as Hr.
  { rewrite Forall_forall in Hrows. apply Hrows. eapply list_elem_of_lookup_2. exact Hrow. }
  destruct (lookup_lt_is_Some_2 row j) as [v Hv]; [lia|].
  eauto.
Qed.

(** ** computeNetBalances *)

Lemma netStep_square (n i j : nat) (st : CashFlowMinimizer) (p : Person) :
  square n (debtMatrix_ st) -> (i < n)%nat -> (j < n)%nat ->
  people_ st !! i = Some p ->
  netStep i j st
  = Ok (with_people
          (<[ i := adjustBalance (entry (debtMatrix_ st) j i - entry (debtMatrix_ st) i j) p ]>
             (people_ st)) st).
Proof.
  intros Hsq Hi Hj Hp. unfold netStep.
  destruct (square_lookup n _ j i Hsq Hj Hi) as (rj & vji & Hrj & Hvji).
  destruct (square_lookup n _ i j Hsq Hi Hj) as (ri & vij & Hri & Hvij).
  rewrite (at_Some _ _ _ Hrj). simpl. rewrite (at_Some _ _ _ Hvji). simpl.
  rewrite (at_Some _ _ _ Hri). simpl. rewrite (at_Some _ _ _ Hvij). simpl.
  rewrite (entry_Some _ _ _ _ _ Hrj Hvji), (entry_Some _ _ _ _ _ Hri Hvij).
  apply adjust_Some. exact Hp.
Qed.

(** The inner loop adds to participant [i] the partial sum over [j < k]. *)
Lemma net_inner (n i k : nat) (st : CashFlowMinimizer) (p : Person) :
  square n (debtMatrix_ st) -> (i < n)%nat -> (k <= n)%nat ->
  people_ st !! i = Some p ->
  for_ 0 k (fun j st'' => netStep i j st'') st
  = Ok (with_people
          (<[ i := adjustBalance
                     (sum_upto k (fun j => entry (debtMatrix_ st) j i)
                      - sum_upto k (fun j => entry (debtMatrix_ st) i j)) p ]>
             (people_ st)) st).
Proof.
  intros Hsq Hi Hk Hp. induction k as [|k IH].
  - simpl. rewrite adjustBalance_zero, list_insert_id by exact Hp.
    rewrite with_people_id. reflexivity.
  - rewrite for_snoc, IH by lia. simpl.
    erewrite (netStep_square n i k); [| exact Hsq | exact Hi | lia |].
    2:{ simpl. apply list_lookup_insert_eq. eapply lookup_lt_Some. exact Hp. }
    simpl. rewrite with_people_twice, list_insert_insert_eq, adjustBalance_twice.
    do 4 f_equal. lia.
Qed.

Lemma netted_zero (m : list (list Z)) (n : nat) (ps : list Person) :
  netted m n 0 ps = ps.
Proof.
  apply list_eq. intros i. unfold netted. rewrite list_lookup_imap.
  destruct (ps !! i); simpl; [|reflexivity].
  destruct (decide (i < 0)%nat); [lia | reflexivity].
Qed.

Lemma netted_step (m : list (list Z)) (n k : nat) (ps : list Person) (p : Person) :
  ps !! k = Some p ->
  <[ k := adjustBalance (net m n k) p ]> (netted m n k ps) = netted m n (S k) ps.
Proof.
  intros Hp. apply list_eq. intros i. unfold netted.
  destruct (decide (i = k)) as [->|Hne].
  - rewrite list_lookup_insert_eq.
    + rewrite list_lookup_imap, Hp. simpl.
      destruct (decide (k < S k)%nat); [reflexivity | lia].
    + rewrite length_imap. eapply lookup_lt_Some. exact Hp.
  - rewrite list_lookup_insert_ne by congruence.
    rewrite !list_lookup_imap. destruct (ps !! i); simpl; [|reflexivity].
    destruct (decide (i < k)%nat), (decide (i < S k)%nat); try reflexivity; lia.
Qed.

Lemma net_outer (n k : nat) (st : CashFlowMinimizer) :
  square n (debtMatrix_ st) -> length (people_ st) = n -> (k <= n)%nat ->
  for_ 0 k (fun i st' => for_ 0 n (fun j st'' => netStep i j st'') st') st
  = Ok (with_people (netted (debtMatrix_ st) n k (people_ st)) st).
Proof.
  intros Hsq Hlen Hk. induction k as [|k IH].
  - simpl. rewrite netted_zero, with_people_id. reflexivity.
  - rewrite for_snoc, IH by lia. cbn [mbind outcome_bind plus].
    destruct (lookup_lt_is_Some_2 (people_ st) k) as [p Hp]; [lia|].
    rewrite (net_inner n k n _ p); [| exact Hsq | lia | lia |].
    2:{ rewrite people_with_people. unfold netted. rewrite list_lookup_imap, Hp. simpl.
        destruct (decide (k < k)%nat); [lia | reflexivity]. }
    rewrite people_with_people, matrix_with_people, with_people_twice.
    fold (net (debtMatrix_ st) n k). rewrite netted_step by exact Hp. reflexivity.
Qed.

Lemma computeNetBalances_netted (n : nat) (st : CashFlowMinimizer) :
  n_ st = Z.of_nat n -> square n (debtMatrix_ st) -> length (people_ st) = n ->
  computeNetBalances st
  = Ok (with_people (netted (debtMatrix_ st) n n (people_ st)) st).
Proof.
  intros Hn Hsq Hlen. unfold computeNetBalances.
  rewrite Hn, Nat2Z.id. apply net_outer; auto.
Qed.

Lemma sum_upto_ext (n : nat) (f g : nat -> Z) :
  (forall j, (j < n)%nat -> f j = g j) -> sum_upto n f = sum_upto n g.
Proof.
  induction n as [|n IH]; intros H; simpl; [reflexivity|].
  rewrite IH, H by (intros; try apply H; lia). reflexivity.
Qed.

Lemma sum_upto_skip (n i : nat) (f : nat -> Z) :
  sum_upto n (fun j => if decide (j = i) then 0 else f j)
  = sum_upto n f - (if decide (i < n)%nat then f i else 0).
Proof.
  induction n as [|n IH]; simpl.
  - destruct (decide (i < 0)%nat); lia.
  - rewrite IH.
    destruct (decide (n = i)) as [Heq|Hne];
      destruct (decide (i < n)%nat), (decide (i < S n)%nat); try lia.
    subst i. lia.
Qed.

Lemma net_ignores_diagonal (m : list (list Z)) (n i : nat) :
  net m n i = net_off_diagonal m n i.
Proof.
  unfold net, net_off_diagonal. rewrite !sum_upto_skip. cbv beta.
  change (sum_upto n (entry m i)) with (sum_upto n (fun j => entry m i j)).
  destruct (decide (i < n)%nat); lia.
Qed.

(** ** The input stream *)

Lemma get_word_good (cin cin' : istream) (w : string) :
  get_word cin = (w, cin') -> good cin' = true ->
  good cin = true /\ exists t, toks cin = t :: toks cin' /\ w = text t.
Proof.
  unfold get_word. destruct cin as [ts g]; simpl.
  destruct g; [destruct ts as [|t r]|]; intros [= <- <-]; simpl; intros Hg;
    try discriminate.
  - split; [reflexivity|]. exists t. auto.
Qed.

Lemma get_int_Some (cin cin' : istream) (z : Z) :
  get_int cin = (Some z, cin') ->
  good cin = true /\ good cin' = true
  /\ exists t, toks cin = t :: toks cin' /\ as_int t = Some z.
Proof.
  unfold get_int. destruct cin as [ts g]; simpl.
  destruct g; [destruct ts as [|t r]; [|destruct (as_int t) eqn:Ht]|];
    intros [= <- <-]; simpl.
  split; [reflexivity|]. split; [reflexivity|]. exists t. auto.
Qed.

Lemma get_word_cons (t : token) (r : list token) :
  get_word (mkStream (t :: r) true) = (text t, mkStream r true).
Proof. reflexivity. Qed.

Lemma get_int_cons (t : token) (r : list token) (z : Z) :
  as_int t = Some z ->
  get_int (mkStream (t :: r) true) = (Some z, mkStream r true).
Proof. intros H. unfold get_int. simpl. rewrite H. reflexivity. Qed.

(** ** readParticipants *)

(** What [readUPIs] leaves alone. *)
Lemma readUPIs_state (k : nat) (st st' : CashFlowMinimizer) (cin cin' : istream) :
  readUPIs k st cin = (st', cin') ->
  n_ st' = n_ st /\ idx_ st' = idx_ st /\ debtMatrix_ st' = debtMatrix_ st
  /\ result_ st' = result_ st /\ length (people_ st') = length (people_ st)
  /\ balance_ <$> people_ st' = balance_ <$> people_ st.
Proof.
  revert st cin. induction k as [|k IH]; intros st cin; simpl.
  - intros [= <- <-]. repeat split; reflexivity.
  - destruct (get_word cin) as [u cin1]. intros H. apply IH in H. simpl in H.
    destruct H as (-> & -> & -> & -> & -> & ->).
    repeat split; try reflexivity.
    + apply length_alter.
    + apply list_eq. intros i. rewrite !list_lookup_fmap.
      destruct (decide (i = pred (length (people_ st)))) as [->|Hne].
      * rewrite list_lookup_alter_eq. destruct (people_ st !! _); reflexivity.
      * rewrite list_lookup_alter_ne by congruence. reflexivity.
Qed.

Lemma readUPIs_good (k : nat) (st st' : CashFlowMinimizer) (cin cin' : istream) :
  readUPIs k st cin = (st', cin') -> good cin' = true ->
  good cin = true /\ exists tus, length tus = k /\ toks cin = tus ++ toks cin'.
Proof.
  revert st cin. induction k as [|k IH]; intros st cin; simpl.
  - intros [= <- <-] Hg. split; [exact Hg|]. exists []. auto.
  - destruct (get_word cin) as [u cin1] eqn:Hw. intros H Hg.
    destruct (IH _ _ H Hg) as (Hg1 & tus & Hlen & Htoks).
    destruct (get_word_good _ _ _ Hw Hg1) as (Hg0 & t & Ht & _).
    split; [exact Hg0|]. exists (t :: tus). simpl. rewrite Hlen, Ht, Htoks. auto.
Qed.


Lemma registerParticipant_Ok (i : nat) (st st' : CashFlowMinimizer) (cin cin' : istream) :
  registerParticipant i (st, cin) = Ok (st', cin') ->
  exists name cin1 k cin2,
    get_word cin = (name, cin1) /\ get_int cin1 = (Some k, cin2) /\ 0 <= k
    /\ readUPIs (Z.to_nat k) (emplace_person name i st) cin2 = (st', cin').
Proof.
  unfold registerParticipant.
  destruct (get_word cin) as [name cin1] eqn:Hw.
  destruct (get_int cin1) as [[k|] cin2] eqn:Hi; [|discriminate].
  destruct (k <? 0) eqn:Hk; [discriminate|].
  intros [= H]. exists name, cin1, k, cin2.
  apply Z.ltb_ge in Hk. auto.
Qed.


Lemma registerParticipant_state (i : nat) (st st' : CashFlowMinimizer) (cin cin' : istream) :
  registerParticipant i (st, cin) = Ok (st', cin') ->
  registering i st ->
  n_ st' = n_ st /\ debtMatrix_ st' = debtMatrix_ st /\ result_ st' = result_ st
  /\ registering (S i) st'
  /\ exists name, idx_ st' = <[ name := i ]> (idx_ st)
       /\ (good cin' = true ->
           good cin = true
           /\ exists tn tk tus, toks cin = tn :: tk :: tus ++ toks cin'
                /\ text tn = name
                /\ as_int tk = Some (Z.of_nat (length tus))).
Proof.
  intros H (Hlen & Hidx & Hbal).
  destruct (registerParticipant_Ok _ _ _ _ _ H) as (name & cin1 & k & cin2 & Hw & Hi & Hk & Hu).
  destruct (readUPIs_state _ _ _ _ _ Hu) as (Hn & Hix & Hm & Hr & Hl & Hb).
  simpl in *. unfold registering. split_and!; try assumption.
  - rewrite Hl, length_app. simpl. lia.
  - rewrite Hix. apply map_Forall_insert_2; [lia|].
    eapply map_Forall_impl; [exact Hidx|]. simpl. intros; lia.
  - rewrite Forall_forall. intros p Hp.
    assert (balance_ p ∈ balance_ <$> people_ st') as Hin
      by (apply list_elem_of_fmap; eauto).
    rewrite Hb, fmap_app in Hin. apply elem_of_app in Hin as [Hin|Hin].
    + apply list_elem_of_fmap in Hin as (q & -> & Hq).
      rewrite Forall_forall in Hbal. auto.
    + simpl in Hin. apply list_elem_of_singleton in Hin. exact Hin.
  - exists name. split; [exact Hix|]. intros Hg.
    destruct (readUPIs_good _ _ _ _ _ Hu Hg) as (Hg2 & tus & Htl & Htoks).
    destruct (get_int_Some _ _ _ Hi) as (Hg1 & _ & tk & Htk & Hik).
    destruct (get_word_good _ _ _ Hw Hg1) as (Hg0 & tn & Htn & Hname).
    split; [exact Hg0|]. exists tn, tk, tus.
    rewrite Htn, Htk, Htoks, Htl, Z2Nat.id by lia. auto.
Qed.

(** The registration loop, read backwards from a successful outcome. *)
Lemma register_loop (cnt i : nat) (st st' : CashFlowMinimizer) (cin cin' : istream) :
  for_ i cnt registerParticipant (st, cin) = Ok (st', cin') ->
  registering i st ->
  n_ st' = n_ st /\ debtMatrix_ st' = debtMatrix_ st /\ result_ st' = result_ st
  /\ registering (i + cnt) st'
  /\ (good cin' = true ->
      good cin = true
      /\ exists tps names, participants cnt tps names
           /\ toks cin = tps ++ toks cin'
           /\ forall d, is_Some (idx_ st' !! d) <-> d ∈ names \/ is_Some (idx_ st !! d)).
Proof.
  revert i st cin. induction cnt as [|cnt IH]; intros i st cin.
  - simpl. intros [= <- <-] Hreg. replace (i + 0)%nat with i by lia.
    split_and!; try assumption; try reflexivity.
    intros Hg. split; [exact Hg|]. exists [], []. split; [constructor|].
    split; [reflexivity|]. intros d. rewrite elem_of_nil. tauto.
  - rewrite for_S.
    destruct (registerParticipant i (st, cin)) as [[st1 cin1]| |] eqn:H1; try discriminate.
    change (for_ (S i) cnt registerParticipant (st1, cin1) = Ok (st', cin') -> registering i st ->
            n_ st' = n_ st /\ debtMatrix_ st' = debtMatrix_ st /\ result_ st' = result_ st
            /\ registering (i + S cnt) st'
            /\ (good cin' = true ->
                good cin = true
                /\ exists tps names, participants (S cnt) tps names
                     /\ toks cin = tps ++ toks cin'
                     /\ forall d, is_Some (idx_ st' !! d) <-> d ∈ names \/ is_Some (idx_ st !! d))).
    intros H2 Hreg.
    destruct (registerParticipant_state _ _ _ _ _ H1 Hreg)
      as (Hn1 & Hm1 & Hr1 & Hreg1 & name & Hidx1 & Hstream1).
    destruct (IH _ _ _ H2 Hreg1) as (Hn2 & Hm2 & Hr2 & Hreg2 & Hstream2).
    replace (i + S cnt)%nat with (S i + cnt)%nat by lia.
    split_and!; try congruence; try assumption.
    intros Hg.
    destruct (Hstream2 Hg) as (Hg1 & tps & names & Hps & Htoks & Hdom).
    destruct (Hstream1 Hg1) as (Hg0 & tn & tk & tus & Ht & Hname & Hk).
    split; [exact Hg0|].
    + exists (tn :: tk :: tus ++ tps), (text tn :: names).
      split; [constructor; assumption|].
      split; [rewrite Ht, Htoks; simpl; rewrite <- app_assoc; reflexivity|].
      intros d. rewrite Hdom, Hidx1, elem_of_cons, Hname.
      destruct (decide (name = d)) as [->|Hne].
      * rewrite lookup_insert_eq. split; [auto|]. intros _. right. eauto.
      * rewrite lookup_insert_ne by exact Hne. split; [tauto|].
        intros [[Hd|Hd]|Hd]; [congruence|auto|auto].
Qed.



(** *** The Treasurer takes over every identifier *)

Lemma absorb_fields (l : list string) (t : Person) :
  name_ (absorb l t) = name_ t /\ balance_ (absorb l t) = balance_ t
  /\ upis_ (absorb l t) = list_to_set l ∪ upis_ t.
Proof.
  revert t. induction l as [|u l IH]; intros t; simpl.
  - split_and!; try reflexivity. set_solver.
  - destruct (IH (addUPI u t)) as (-> & -> & ->). simpl.
    split_and!; try reflexivity. set_solver.
Qed.

Lemma share_each (l : list string) (st : CashFlowMinimizer) (t : Person) :
  people_ st !! 0%nat = Some t ->
  for_each l
    (fun u st' =>
       t ← at_ (people_ st') 0%nat;
       Ok (with_people (<[ 0%nat := addUPI u t ]> (people_ st')) st'))
    st
  = Ok (with_people (<[ 0%nat := absorb l t ]> (people_ st)) st).
Proof.
  revert st t. induction l as [|u l IH]; intros st t Ht; simpl.
  - rewrite list_insert_id by exact Ht. rewrite with_people_id. reflexivity.
  - rewrite (at_Some _ _ _ Ht). simpl.
    rewrite (IH _ (addUPI u t)).
    + rewrite people_with_people, with_people_twice, list_insert_insert_eq. reflexivity.
    + rewrite people_with_people. apply list_lookup_insert_eq.
      eapply lookup_lt_Some. exact Ht.
Qed.

Lemma shareUPIs_Some (i : nat) (st : CashFlowMinimizer) (t p : Person) :
  people_ st !! 0%nat = Some t -> people_ st !! i = Some p ->
  shareUPIs i st
  = Ok (with_people (<[ 0%nat := absorb (elements (upis_ p)) t ]> (people_ st)) st).
Proof.
  intros Ht Hp. unfold shareUPIs. rewrite (at_Some _ _ _ Hp). simpl.
  apply share_each. exact Ht.
Qed.

(** After the loop the Treasurer holds its own identifiers and those of
    the participants [1 .. k]; nothing else has changed. *)
Lemma share_loop (k : nat) (st : CashFlowMinimizer) (t : Person) :
  people_ st !! 0%nat = Some t -> (k < length (people_ st))%nat ->
  exists t', for_ 1 k shareUPIs st = Ok (with_people (<[ 0%nat := t' ]> (people_ st)) st)
    /\ name_ t' = name_ t /\ balance_ t' = balance_ t
    /\ upis_ t ⊆ upis_ t'
    /\ forall j p, (1 <= j <= k)%nat -> people_ st !! j = Some p -> upis_ p ⊆ upis_ t'.
Proof.
  intros Ht. induction k as [|k IH]; intros Hk.
  - exists t. simpl. rewrite list_insert_id by exact Ht. rewrite with_people_id.
    split_and!; try reflexivity. intros j p Hj. lia.
  - destruct IH as (t1 & Hloop & Hname & Hbal & Hsub & Hall); [lia|].
    destruct (lookup_lt_is_Some_2 (people_ st) (S k)) as [p Hp]; [lia|].
    rewrite for_snoc, Hloop. simpl.
    rewrite (shareUPIs_Some (S k) _ t1 p).
    + rewrite people_with_people, with_people_twice, list_insert_insert_eq.
      destruct (absorb_fields (elements (upis_ p)) t1) as (Hn & Hb & Hu).
      eexists. split; [reflexivity|]. rewrite Hn, Hb, Hu.
      split_and!; try assumption.
      * set_solver.
      * intros j q Hj Hq. destruct (decide (j = S k)) as [->|Hne].
        -- rewrite Hp in Hq. injection Hq as <-. set_solver.
        -- assert (upis_ q ⊆ upis_ t1) by (apply (Hall j); [lia | exact Hq]). set_solver.
    + rewrite people_with_people. apply list_lookup_insert_eq.
      eapply lookup_lt_Some. exact Ht.
    + rewrite people_with_people, list_lookup_insert_ne by lia. exact Hp.
Qed.


Lemma square_replicate (n : nat) : square n (replicate n (replicate n 0)).
Proof.
  split; [apply length_replicate|].
  apply Forall_forall. intros row Hrow.
  apply elem_of_replicate in Hrow as [-> _]. apply length_replicate.
Qed.

Lemma registering_initial (st : CashFlowMinimizer) :
  people_ st = [] -> idx_ st = ∅ -> registering 0 st.
Proof.
  intros Hp Hi. unfold registering. rewrite Hp, Hi.
  split_and!; [reflexivity | apply map_Forall_empty | constructor].
Qed.

Lemma readParticipants_unfold (input : list token) :
  readParticipants initial (mkStream input true)
  = let '(on, cin) := get_int (mkStream input true) in
    let n := default 0 on in
    if n <? 2 then Throw "At least 2 participants required."
    else
      '(st, cin) ← for_ 0 (Z.to_nat n) registerParticipant (sized n, cin);
      st ← for_ 1 (Z.to_nat n - 1) shareUPIs st;
      Ok (st, cin).
Proof. reflexivity. Qed.

(** The two loops of [readParticipants], read backwards. *)
Lemma registration_Ok (n : nat) (cin cin1 : istream) (st1 : CashFlowMinimizer) :
  (2 <= n)%nat ->
  for_ 0 n registerParticipant (sized (Z.of_nat n), cin) = Ok (st1, cin1) ->
  exists st, for_ 1 (n - 1) shareUPIs st1 = Ok st
    /\ registered n st /\ result_ st = [] /\ treasurer_universal (people_ st)
    /\ idx_ st = idx_ st1
    /\ (good cin1 = true ->
        good cin = true
        /\ exists tps names, participants n tps names
             /\ toks cin = tps ++ toks cin1 /\ knows st names).
Proof.
  intros Hn Hloop.
  destruct (register_loop _ _ _ _ _ _ Hloop) as (Hn1 & Hm1 & Hr1 & (Hlen & Hidx & Hbal) & Hstream).
  { apply registering_initial; reflexivity. }
  simpl in Hn1, Hm1, Hr1, Hlen. rewrite Nat2Z.id in Hm1.
  destruct (lookup_lt_is_Some_2 (people_ st1) 0) as [t Ht]; [lia|].
  destruct (share_loop (n - 1) st1 t Ht) as (t' & Hshare & Hname & Htbal & Hsub & Hall); [lia|].
  eexists. split; [exact Hshare|].
  assert (<[0%nat:=t']> (people_ st1) !! 0%nat = Some t') as Ht'.
  { apply list_lookup_insert_eq. lia. }
  split_and!.
  - unfold registered. simpl. rewrite length_insert, Hm1.
    split_and!; try assumption.
    + apply square_replicate.
    + rewrite Forall_forall in Hbal |- *. intros p Hp.
      apply list_elem_of_lookup in Hp as [i Hp].
      destruct (decide (i = 0%nat)) as [->|Hne].
      * rewrite Ht' in Hp. injection Hp as <-. rewrite Htbal.
        apply Hbal. eapply list_elem_of_lookup_2. exact Ht.
      * rewrite list_lookup_insert_ne in Hp by congruence.
        apply Hbal. eapply list_elem_of_lookup_2. exact Hp.
  - exact Hr1.
  - intros t0 p i. simpl. rewrite Ht'. intros [= <-] Hp.
    destruct (decide (i = 0%nat)) as [->|Hne].
    + rewrite Ht' in Hp. injection Hp as <-. reflexivity.
    + rewrite list_lookup_insert_ne in Hp by congruence.
      apply (Hall i); [|exact Hp]. apply lookup_lt_Some in Hp. lia.
  - reflexivity.
  - intros Hg. destruct (Hstream Hg) as (Hg0 & tps & names & Hps & Htoks & Hdom).
    split; [exact Hg0|]. exists tps, names. split_and!; try assumption.
    intros d. simpl. rewrite Hdom. simpl. rewrite lookup_empty.
    split; [intros [H|H]; [exact H | destruct H; discriminate] | auto].
Qed.

(** [readParticipants] on a fresh object, read backwards from success. *)
Lemma readParticipants_Ok (input : list token) (st : CashFlowMinimizer) (cin : istream) :
  readParticipants initial (mkStream input true) = Ok (st, cin) ->
  exists n, (2 <= n)%nat /\ registered n st /\ result_ st = []
    /\ treasurer_universal (people_ st)
    /\ (good cin = true ->
        exists tn tps names, input = tn :: tps ++ toks cin
          /\ as_int tn = Some (Z.of_nat n)
          /\ participants n tps names /\ knows st names).
Proof.
  rewrite readParticipants_unfold.
  destruct (get_int (mkStream input true)) as [on cin0] eqn:Hint. simpl.
  destruct (Z.ltb_spec (default 0 on) 2) as [Hlt|Hge]; [discriminate|].
  destruct on as [z|]; simpl in Hge; [|lia].
  simpl default.
  destruct (for_ 0 (Z.to_nat z) registerParticipant (sized z, cin0))
    as [[st1 cin1]| |] eqn:Hloop; try discriminate.
  simpl. rewrite <- (Z2Nat.id z) in Hloop at 2 by lia.
  destruct (registration_Ok (Z.to_nat z) cin0 cin1 st1) as (st2 & Hshare & Hreg & Hres & Huni & _ & Hstream);
    [lia | exact Hloop |].
  rewrite Hshare. simpl. intros [= <- <-].
  exists (Z.to_nat z). split_and!; try assumption; [lia|].
  intros Hg. destruct (Hstream Hg) as (Hg0 & tps & names & Hps & Htoks & Hknows).
  destruct (get_int_Some _ _ _ Hint) as (_ & _ & tn & Htn & Hz). simpl in Htn.
  exists tn, tps, names. rewrite Htn, Htoks, Z2Nat.id by lia. auto.
Qed.



(** ** readTransactions *)

Lemma add_debt_square (n i j : nat) (a : Z) (st : CashFlowMinimizer) :
  square n (debtMatrix_ st) -> (i < n)%nat -> (j < n)%nat ->
  exists m, add_debt i j a st = Ok (with_matrix m st) /\ square n m.
Proof.
  intros Hsq Hi Hj. unfold add_debt.
  destruct (square_lookup n _ i j Hsq Hi Hj) as (row & v & Hrow & Hv).
  rewrite (at_Some _ _ _ Hrow). simpl. rewrite (at_Some _ _ _ Hv). simpl.
  eexists. split; [reflexivity|].
  destruct Hsq as [Hlen Hrows]. split.
  - rewrite length_insert. exact Hlen.
  - apply Forall_insert; [exact Hrows|]. rewrite length_insert.
    rewrite Forall_forall in Hrows. apply Hrows. eapply list_elem_of_lookup_2. exact Hrow.
Qed.

Lemma registered_with_matrix (n : nat) (m : list (list Z)) (st : CashFlowMinimizer) :
  registered n st -> square n m -> registered n (with_matrix m st).
Proof.
  intros (Hn & Hlen & _ & Hidx & Hbal) Hsq. unfold registered. simpl. auto.
Qed.

Lemma registered_idx (n : nat) (st : CashFlowMinimizer) (d : string) (i : nat) :
  registered n st -> idx_ st !! d = Some i -> (i < n)%nat.
Proof. intros (_ & _ & _ & Hidx & _) Hd. exact (Hidx d i Hd). Qed.

(** One debt record, read backwards from success. *)
Lemma readDebt_Ok (n : nat) (st st' : CashFlowMinimizer) (cin cin' : istream) :
  registered n st ->
  readDebt (st, cin) = Ok (st', cin') ->
  good cin = true /\ good cin' = true
  /\ exists td tc ta a i j m,
       toks cin = td :: tc :: ta :: toks cin'
       /\ as_int ta = Some a /\ 0 < a
       /\ idx_ st !! text td = Some i /\ idx_ st !! text tc = Some j
       /\ st' = with_matrix m st /\ square n m.
Proof.
  intros Hreg. unfold readDebt.
  destruct (get_word cin) as [d cin1] eqn:Hd.
  destruct (get_word cin1) as [c cin2] eqn:Hc.
  destruct (get_int cin2) as [[a|] cin3] eqn:Ha; [|discriminate].
  destruct (Z.leb_spec a 0) as [Hle|Hpos]; [discriminate|].
  destruct (idx_ st !! d) as [i|] eqn:Hi; [|discriminate].
  destruct (idx_ st !! c) as [j|] eqn:Hj; [|discriminate].
  destruct (add_debt_square n i j a st) as (m & Hadd & Hsq).
  { apply Hreg. } { eapply registered_idx; eauto. } { eapply registered_idx; eauto. }
  rewrite Hadd. simpl. intros [= <- <-].
  destruct (get_int_Some _ _ _ Ha) as (Hg2 & Hg3 & ta & Hta & Hia).
  destruct (get_word_good _ _ _ Hc Hg2) as (Hg1 & tc & Htc & ->).
  destruct (get_word_good _ _ _ Hd Hg1) as (Hg0 & td & Htd & ->).
  split_and!; try assumption.
  exists td, tc, ta, a, i, j, m. rewrite Htd, Htc, Hta. auto 10.
Qed.


(** One well-formed debt record. *)
Lemma readDebt_tokens (n : nat) (st : CashFlowMinimizer) (td tc ta : token)
    (a : Z) (i j : nat) (r : list token) :
  registered n st ->
  idx_ st !! text td = Some i -> idx_ st !! text tc = Some j ->
  as_int ta = Some a -> 0 < a ->
  exists m, readDebt (st, mkStream (td :: tc :: ta :: r) true)
            = Ok (with_matrix m st, mkStream r true)
    /\ add_debt i j a st = Ok (with_matrix m st) /\ square n m.
Proof.
  intros Hreg Hi Hj Ha Hpos. unfold readDebt.
  rewrite !get_word_cons, (get_int_cons _ _ _ Ha).
  destruct (Z.leb_spec a 0) as [Hle|_]; [lia|].
  rewrite Hi, Hj.
  destruct (add_debt_square n i j a st) as (m & Hadd & Hsq).
  { apply Hreg. } { eapply registered_idx; eauto. } { eapply registered_idx; eauto. }
  rewrite Hadd. simpl. eauto.
Qed.

Lemma knows_with_matrix (m : list (list Z)) (st : CashFlowMinimizer) (names : list string) :
  knows st names -> knows (with_matrix m st) names.
Proof. intros H. exact H. Qed.

Lemma knows_dom (st : CashFlowMinimizer) : knows st (elements (dom (idx_ st))).
Proof. intros d. rewrite elem_of_elements, elem_of_dom. reflexivity. Qed.

(** The loop of [readTransactions], read backwards from success. *)
Lemma debt_loop (n m : nat) (names : list string) :
  forall (start : nat) (st st' : CashFlowMinimizer) (cin cin' : istream),
  registered n st -> knows st names ->
  for_ start m (fun _ => readDebt) (st, cin) = Ok (st', cin') ->
  registered n st' /\ people_ st' = people_ st /\ idx_ st' = idx_ st
  /\ result_ st' = result_ st
  /\ exists tds, debts names m tds /\ toks cin = tds ++ toks cin'.
Proof.
  induction m as [|m IH]; intros start st st' cin cin' Hreg Hknows.
  - simpl. intros [= <- <-]. split_and!; try assumption; try reflexivity.
    exists []. split; [constructor | reflexivity].
  - rewrite for_S.
    destruct (readDebt (st, cin)) as [[st1 cin1]| |] eqn:H1; try discriminate.
    change (for_ (S start) m (fun _ => readDebt) (st1, cin1) = Ok (st', cin') ->
            registered n st' /\ people_ st' = people_ st /\ idx_ st' = idx_ st
            /\ result_ st' = result_ st
            /\ exists tds, debts names (S m) tds /\ toks cin = tds ++ toks cin').
    intros H2.
    destruct (readDebt_Ok n _ _ _ _ Hreg H1)
      as (Hg & Hg1 & td & tc & ta & a & i & j & mx & Htoks & Ha & Hpos & Hi & Hj & -> & Hsq).
    destruct (IH _ _ _ _ _ (registered_with_matrix _ _ _ Hreg Hsq)
                (knows_with_matrix _ _ _ Hknows) H2)
      as (Hreg' & Hp & Hix & Hr & tds & Hds & Htoks').
    split_and!; try assumption.
    exists (td :: tc :: ta :: tds). split.
    + econstructor; try eassumption; apply Hknows; eauto.
    + rewrite Htoks, Htoks'. reflexivity.
Qed.



Lemma readTransactions_Ok (n : nat) (names : list string)
    (st st' : CashFlowMinimizer) (cin cin' : istream) :
  registered n st -> knows st names ->
  readTransactions st cin = Ok (st', cin') ->
  registered n st' /\ people_ st' = people_ st /\ idx_ st' = idx_ st
  /\ result_ st' = result_ st /\ good cin = true
  /\ exists tm m tds, toks cin = tm :: tds ++ toks cin'
       /\ as_int tm = Some (Z.of_nat m) /\ debts names m tds.
Proof.
  intros Hreg Hknows. unfold readTransactions.
  destruct (get_int cin) as [[m|] cin1] eqn:Hm; [|discriminate].
  destruct (Z.ltb_spec m 0) as [Hneg|Hnn]; [discriminate|].
  intros Hloop.
  destruct (debt_loop n _ names _ _ _ _ _ Hreg Hknows Hloop)
    as (Hreg' & Hp & Hix & Hr & tds & Hds & Htoks).
  destruct (get_int_Some _ _ _ Hm) as (Hg & _ & tm & Htm & Him).
  split_and!; try assumption.
  exists tm, (Z.to_nat m), tds. rewrite Htm, Htoks, Z2Nat.id by lia. auto.
Qed.



(** ** Every phase after registration is a sequence of elementary writes *)

Lemma later_refl (st : CashFlowMinimizer) : later st st.
Proof. apply rtc_refl. Qed.

Lemma later_trans (a b c : CashFlowMinimizer) : later a b -> later b c -> later a c.
Proof. apply rtc_trans. Qed.

Lemma later_adjust (i : nat) (z : Z) (st st' : CashFlowMinimizer) :
  adjust i z st = Ok st' -> later st st'.
Proof. intros H. apply rtc_once. eapply mutation_balance. exact H. Qed.

Lemma later_emplace (t : Transfer) (st : CashFlowMinimizer) :
  later st (emplace_result t st).
Proof. apply rtc_once. constructor. Qed.

Lemma later_add_debt (i j : nat) (a : Z) (st st' : CashFlowMinimizer) :
  add_debt i j a st = Ok st' -> later st st'.
Proof. intros H. apply rtc_once. eapply mutation_debt. exact H. Qed.

Lemma bind_Ok_l {A B : Type} (a : A) (f : A -> outcome B) : Ok a ≫= f = f a.
Proof. reflexivity. Qed.

Lemma bind_Ok {A B : Type} (m : outcome A) (f : A -> outcome B) (b : B) :
  m ≫= f = Ok b -> exists a, m = Ok a /\ f a = Ok b.
Proof. destruct m as [a| |]; simpl; try discriminate. eauto. Qed.

(** A loop whose body moves along a preorder [R] does so as a whole. *)
Lemma for_preorder {S : Type} (R : relation S) (body : nat -> S -> outcome S) :
  (forall s, R s s) -> (forall a b c, R a b -> R b c -> R a c) ->
  (forall i s s', body i s = Ok s' -> R s s') ->
  forall count start s s', for_ start count body s = Ok s' -> R s s'.
Proof.
  intros Hrefl Htrans Hbody count.
  induction count as [|c IH]; intros start s s'.
  - simpl. intros [= <-]. apply Hrefl.
  - rewrite for_S. intros H. apply bind_Ok in H as (s1 & H1 & H2).
    eapply Htrans; [eapply Hbody; exact H1 | eapply IH; exact H2].
Qed.

Lemma readDebt_later (st st' : CashFlowMinimizer) (cin cin' : istream) :
  readDebt (st, cin) = Ok (st', cin') -> later st st'.
Proof.
  unfold readDebt.
  destruct (get_word cin) as [d cin1]. destruct (get_word cin1) as [c cin2].
  destruct (get_int cin2) as [[a|] cin3]; [|discriminate].
  destruct (a <=? 0); [discriminate|].
  destruct (idx_ st !! d) as [i|]; [|discriminate].
  destruct (idx_ st !! c) as [j|]; [|discriminate].
  intros H. apply bind_Ok in H as (st1 & H1 & [= <- <-]).
  eapply later_add_debt. exact H1.
Qed.

Lemma readTransactions_later (st st' : CashFlowMinimizer) (cin cin' : istream) :
  readTransactions st cin = Ok (st', cin') -> later st st'.
Proof.
  unfold readTransactions.
  destruct (get_int cin) as [[m|] cin1]; [|discriminate].
  destruct (m <? 0); [discriminate|].
  intros H.
  apply (for_preorder (fun a b => later (fst a) (fst b)) (fun _ => readDebt)) in H.
  - exact H.
  - intros s. apply later_refl.
  - intros a b c. apply later_trans.
  - intros _ [s1 c1] [s2 c2]. apply readDebt_later.
Qed.

Lemma netStep_later (i j : nat) (st st' : CashFlowMinimizer) :
  netStep i j st = Ok st' -> later st st'.
Proof.
  unfold netStep. intros H.
  apply bind_Ok in H as (rowj & _ & H). apply bind_Ok in H as (dji & _ & H).
  apply bind_Ok in H as (rowi & _ & H). apply bind_Ok in H as (dij & _ & H).
  eapply later_adjust. exact H.
Qed.

Lemma computeNetBalances_later (st st' : CashFlowMinimizer) :
  computeNetBalances st = Ok st' -> later st st'.
Proof.
  unfold computeNetBalances.
  apply (for_preorder later); [apply later_refl | apply later_trans |].
  intros i s s'.
  apply (for_preorder later); [apply later_refl | apply later_trans |].
  intros j. apply netStep_later.
Qed.

Lemma settleDirect_later (d c : nat) (amt bal : Z) (via : string)
    (st st' : CashFlowMinimizer) :
  settleDirect d amt c bal via st = Ok st' -> later st st'.
Proof.
  unfold settleDirect. intros H. apply bind_Ok in H as (st1 & H1 & H2).
  eapply later_trans; [apply later_emplace|].
  eapply later_trans; eapply later_adjust; eassumption.
Qed.

Lemma payTreasurer_later (d : nat) (amt : Z) (st st' : CashFlowMinimizer) :
  payTreasurer d amt st = Ok st' -> later st st'.
Proof.
  unfold payTreasurer. intros H.
  apply bind_Ok in H as (pd & _ & H). apply bind_Ok in H as (u & _ & H).
  apply bind_Ok in H as (st1 & H1 & H2).
  eapply later_trans; [apply later_emplace|].
  eapply later_trans; eapply later_adjust; eassumption.
Qed.

Lemma payHighestCreditor_later (st st' : CashFlowMinimizer) :
  payHighestCreditor st = Ok st' -> later st st'.
Proof.
  unfold payHighestCreditor. intros H.
  apply bind_Ok in H as (pt & _ & H). apply bind_Ok in H as (pfc & _ & H).
  apply bind_Ok in H as (u & _ & H). apply bind_Ok in H as (st1 & H1 & H2).
  eapply later_trans; [apply later_emplace|].
  eapply later_trans; eapply later_adjust; eassumption.
Qed.

Lemma settleRound_later (st st' : CashFlowMinimizer) :
  settleRound st = Ok st' -> later st st'.
Proof.
  unfold settleRound. intros H.
  apply bind_Ok in H as (pd & _ & H).
  apply bind_Ok in H as ([[c bal] via] & _ & H).
  destruct (0 <=? c).
  - eapply settleDirect_later. exact H.
  - unfold settleFallback in H. apply bind_Ok in H as (st1 & H1 & H2).
    eapply later_trans; [eapply payTreasurer_later | eapply payHighestCreditor_later];
      eassumption.
Qed.

Lemma settleLoop_S (fuel : nat) (st : CashFlowMinimizer) :
  settleLoop (S fuel) st
  = (cnt ← settledCount st;
     if cnt <? n_ st then st' ← settleRound st; settleLoop fuel st'
     else Ok (Some st)).
Proof. reflexivity. Qed.


(** Elementary writes leave the identifier sets, the names and the number
    of participants alone. *)
Lemma adjust_channels (i : nat) (z : Z) (st st' : CashFlowMinimizer) :
  adjust i z st = Ok st' -> channels st' = channels st.
Proof.
  unfold adjust, channels. intros H. apply bind_Ok in H as (p & Hp & [= <-]).
  apply at_Ok in Hp. simpl. rewrite list_fmap_insert. simpl.
  apply list_insert_id. rewrite list_lookup_fmap, Hp. reflexivity.
Qed.

Lemma mutation_channels (st st' : CashFlowMinimizer) :
  mutation st st' -> channels st' = channels st.
Proof.
  intros [i j a st1 H | i z st1 H | t].
  - unfold add_debt in H. apply bind_Ok in H as (row & _ & H).
    apply bind_Ok in H as (v & _ & [= <-]). reflexivity.
  - eapply adjust_channels. exact H.
  - reflexivity.
Qed.

Lemma later_channels (st st' : CashFlowMinimizer) :
  later st st' -> channels st' = channels st.
Proof.
  induction 1 as [|a b c Hab _ IH]; [reflexivity|].
  rewrite IH. apply mutation_channels. exact Hab.
Qed.

Lemma treasurer_universal_channels (ps qs : list Person) :
  upis_ <$> qs = upis_ <$> ps -> treasurer_universal ps -> treasurer_universal qs.
Proof.
  intros Heq Huni t p i Ht Hp.
  assert ((upis_ <$> qs) !! 0%nat = Some (upis_ t)) as Ht'
    by (rewrite list_lookup_fmap, Ht; reflexivity).
  assert ((upis_ <$> qs) !! i = Some (upis_ p)) as Hp'
    by (rewrite list_lookup_fmap, Hp; reflexivity).
  rewrite Heq, list_lookup_fmap in Ht', Hp'.
  destruct (ps !! 0%nat) as [t0|] eqn:Et; [|discriminate].
  destruct (ps !! i) as [p0|] eqn:Ep; [|discriminate].
  simpl in Ht', Hp'. injection Ht' as <-. injection Hp' as <-.
  eapply Huni; eassumption.
Qed.

(** ** Only the reading phase throws *)

Lemma not_raises_Ok {A : Type} (a : A) : ~ raises (Ok a).
Proof. intros [w H]. discriminate. Qed.

Lemma not_raises_Undefined {A : Type} : ~ raises (@Undefined A).
Proof. intros [w H]. discriminate. Qed.

Lemma not_raises_bind {A B : Type} (m : outcome A) (f : A -> outcome B) :
  ~ raises m -> (forall a, ~ raises (f a)) -> ~ raises (m ≫= f).
Proof.
  intros Hm Hf. destruct m as [a| |]; simpl.
  - apply Hf.
  - exfalso. apply Hm. eexists. reflexivity.
  - apply not_raises_Undefined.
Qed.

Lemma not_raises_at {A : Type} (v : list A) (i : nat) : ~ raises (at_ v i).
Proof.
  unfold at_. destruct (v !! i); [apply not_raises_Ok | apply not_raises_Undefined].
Qed.

Lemma not_raises_deref (s : gset string) : ~ raises (deref_begin s).
Proof.
  unfold deref_begin.
  destruct (set_begin s); [apply not_raises_Ok | apply not_raises_Undefined].
Qed.

Lemma not_raises_for {S : Type} (body : nat -> S -> outcome S) :
  (forall i s, ~ raises (body i s)) ->
  forall count start s, ~ raises (for_ start count body s).
Proof.
  intros Hbody count. induction count as [|c IH]; intros start s.
  - apply not_raises_Ok.
  - rewrite for_S. apply not_raises_bind; [apply Hbody | intros a; apply IH].
Qed.

Ltac quiet :=
  repeat first
    [ apply not_raises_Ok
    | apply not_raises_Undefined
    | apply not_raises_at
    | apply not_raises_deref
    | apply not_raises_for; intros
    | apply not_raises_bind; [|intros]
    | match goal with
      | |- ~ raises (if ?b then _ else _) => destruct b
      | |- ~ raises (match ?x with _ => _ end) => destruct x
      end ].






(** ** The run as a whole *)

Lemma run_unfold (fuel : nat) (input : list token) :
  run fuel input
  = ('(st, cin) ← readParticipants initial (mkStream input true);
     '(st, cin) ← readTransactions st cin;
     st ← computeNetBalances st;
     settleDebts fuel st).
Proof. reflexivity. Qed.



(** An input the reading phase accepts is well-formed. *)
Lemma reading_accepts (input : list token) (st1 st2 : CashFlowMinimizer)
    (cin1 cin2 : istream) :
  readParticipants initial (mkStream input true) = Ok (st1, cin1) ->
  readTransactions st1 cin1 = Ok (st2, cin2) ->
  well_formed input.
Proof.
  intros Hread Hdebts.
  destruct (readParticipants_Ok _ _ _ Hread) as (n & Hn & Hreg & _ & _ & Hstream).
  destruct (readTransactions_Ok _ _ _ _ _ _ Hreg (knows_dom st1) Hdebts)
    as (_ & _ & _ & _ & Hg & _).
  destruct (Hstream Hg) as (tn & tps & names & Heq & Htn & Hps & Hknows).
  destruct (readTransactions_Ok _ _ _ _ _ _ Hreg Hknows Hdebts)
    as (_ & _ & _ & _ & _ & tm & m & tds & Htoks & Htm & Hds).
  exists tn, tm, n, m, tps, tds, (toks cin2), names.
  rewrite Heq, Htoks. auto 10.
Qed.

Lemma prepared_later (input : list token) (st' : CashFlowMinimizer) :
  prepared input = Ok st' -> later (registry_of input) st'.
Proof.
  unfold prepared, registry_of.
  destruct (readParticipants initial (mkStream input true)) as [[st1 cin1]| |];
    try discriminate.
  simpl. intros H. apply bind_Ok in H as ([st2 cin2] & Hdebts & Hnet).
  eapply later_trans;
    [eapply readTransactions_later; exact Hdebts | apply computeNetBalances_later; exact Hnet].
Qed.


(** ** A debt of a participant to itself *)

Lemma add_debt_entry (i j : nat) (a : Z) (st st' : CashFlowMinimizer) (x y : nat) :
  add_debt i j a st = Ok st' ->
  entry (debtMatrix_ st') x y
  = entry (debtMatrix_ st) x y + (if decide (x = i /\ y = j) then a else 0).
Proof.
  unfold add_debt. intros H.
  apply bind_Ok in H as (row & Hrow & H). apply bind_Ok in H as (v & Hv & [= <-]).
  apply at_Ok in Hrow, Hv. simpl. unfold entry.
  destruct (decide (x = i)) as [->|Hx].
  - rewrite list_lookup_insert_eq by (eapply lookup_lt_Some; exact Hrow).
    rewrite Hrow. simpl.
    destruct (decide (y = j)) as [->|Hy].
    + rewrite list_lookup_insert_eq by (eapply lookup_lt_Some; exact Hv).
      rewrite Hv. simpl. destruct (decide (i = i /\ j = j)); [reflexivity | tauto].
    + rewrite list_lookup_insert_ne by congruence.
      destruct (decide (i = i /\ y = j)); [tauto | lia].
  - rewrite list_lookup_insert_ne by congruence.
    destruct (decide (x = i /\ y = j)); [tauto | lia].
Qed.

Lemma net_self_debt (n i : nat) (a : Z) (st st' : CashFlowMinimizer) (k : nat) :
  add_debt i i a st = Ok st' ->
  net (debtMatrix_ st') n k = net (debtMatrix_ st) n k.
Proof.
  intros H. rewrite !net_ignores_diagonal. unfold net_off_diagonal.
  f_equal; apply sum_upto_ext; intros j _;
    destruct (decide (j = k)) as [->|Hne]; try reflexivity;
    rewrite (add_debt_entry _ _ _ _ _ _ _ H);
    match goal with |- context [decide ?P] => destruct (decide P) as [[-> ->]|_] end;
    try congruence; lia.
Qed.

(** ** findSettlement *)

Lemma foldr_least_nil (l : list string) : foldr least None l = None -> l = [].
Proof.
  destruct l as [|u l]; [reflexivity|]. simpl.
  destruct (foldr least None l) as [v|]; simpl; [destruct (str_lt u v)|]; discriminate.
Qed.

Lemma foldr_least_elem (l : list string) (u : string) :
  foldr least None l = Some u -> u ∈ l.
Proof.
  revert u. induction l as [|x l IH]; intros u; simpl; [discriminate|].
  destruct (foldr least None l) as [v|]; simpl.
  - destruct (str_lt x v); intros [= <-].
    + apply list_elem_of_here.
    + apply list_elem_of_further, IH. reflexivity.
  - intros [= <-]. apply list_elem_of_here.
Qed.

Lemma set_begin_None (s : gset string) : set_begin s = None -> s = ∅.
Proof.
  unfold set_begin. intros H. apply foldr_least_nil in H.
  apply elements_empty_inv in H. apply leibniz_equiv. exact H.
Qed.

Lemma set_begin_elem (s : gset string) (u : string) : set_begin s = Some u -> u ∈ s.
Proof.
  unfold set_begin. intros H. apply foldr_least_elem in H.
  apply elem_of_elements in H. exact H.
Qed.

Lemma INT_MIN_negative : INT_MIN < 0.
Proof. reflexivity. Qed.

Lemma findStep_found (st : CashFlowMinimizer) (d k : nat) (best : Z * Z * string)
    (pd : Person) :
  people_ st !! d = Some pd -> (k < length (people_ st))%nat ->
  found st d k best ->
  exists best', findStep st d k best = Ok best' /\ found st d (S k) best'.
Proof.
  intros Hd Hk Hfound. destruct best as [[c b] v].
  destruct (lookup_lt_is_Some_2 (people_ st) k Hk) as [p Hp].
  unfold findStep. rewrite (at_Some _ _ _ Hp). simpl.
  assert (found st d k (c, b, v) -> (forall u, ~ payable st d k u) ->
          found st d (S k) (c, b, v)) as Hskip.
  { intros [(-> & -> & Hnone) | (c0 & p0 & -> & Hc0 & Hp0 & -> & Hpay)] Hk'.
    - left. split_and!; try reflexivity. intros i u Hi.
      destruct (decide (i = k)) as [->|Hne]; [apply Hk' | apply Hnone; lia].
    - right. exists c0, p0. split_and!; try assumption; try reflexivity. lia. }
  destruct (Z.leb_spec (balance_ p) 0) as [Hle|Hpos].
  - eexists. split; [reflexivity|]. apply Hskip; [exact Hfound|].
    intros u (p' & pd' & Hp' & _ & Hpos & _). rewrite Hp in Hp'. injection Hp' as <-. lia.
  - rewrite (at_Some _ _ _ Hd). simpl.
    destruct (set_begin (upis_ pd ∩ upis_ p)) as [front|] eqn:Hfront.
    + apply set_begin_elem, elem_of_intersection in Hfront as [Hfd Hfp].
      assert (payable st d k front) as Hpay by (exists p, pd; auto).
      destruct (Z.ltb_spec b (balance_ p)) as [Hlt|Hge].
      * eexists. split; [reflexivity|]. right. exists k, p.
        split_and!; try assumption; try reflexivity. lia.
      * eexists. split; [reflexivity|].
        destruct Hfound as [(-> & -> & Hnone) | (c0 & p0 & -> & Hc0 & Hp0 & -> & Hpay0)].
        -- pose proof INT_MIN_negative. lia.
        -- right. exists c0, p0. split_and!; try assumption; try reflexivity. lia.
    + eexists. split; [reflexivity|]. apply Hskip; [exact Hfound|].
      apply set_begin_None in Hfront.
      intros u (p' & pd' & Hp' & Hd' & _ & Hud & Hup).
      rewrite Hp in Hp'. injection Hp' as <-. rewrite Hd in Hd'. injection Hd' as <-.
      assert (u ∈ upis_ pd ∩ upis_ p) as Hin by (apply elem_of_intersection; auto).
      rewrite Hfront in Hin. apply elem_of_empty in Hin. exact Hin.
Qed.

Lemma find_loop (st : CashFlowMinimizer) (d k : nat) (pd : Person) :
  people_ st !! d = Some pd -> (k <= length (people_ st))%nat ->
  exists best, for_ 0 k (findStep st d) (-1, INT_MIN, EmptyString) = Ok best
    /\ found st d k best.
Proof.
  intros Hd. induction k as [|k IH]; intros Hk.
  - eexists. split; [reflexivity|]. left. split_and!; try reflexivity.
    intros i u Hi. lia.
  - destruct IH as (best & Hloop & Hfound); [lia|].
    destruct (findStep_found st d k best pd Hd) as (best' & Hstep & Hfound');
      [lia | exact Hfound |].
    exists best'. rewrite for_snoc, Hloop. simpl. auto.
Qed.

(** [findSettlement] returns a payable creditor whenever there is one. *)
Lemma findSettlement_payable (st : CashFlowMinimizer) (d i : nat) (u : string) :
  n_ st = Z.of_nat (length (people_ st)) ->
  payable st d i u ->
  exists c p via, findSettlement st d = Ok (Z.of_nat c, balance_ p, via)
    /\ people_ st !! c = Some p /\ payable st d c via.
Proof.
  intros Hn Hpay.
  pose proof Hpay as (pi & pd & Hpi & Hd & _).
  destruct (find_loop st d (length (people_ st)) pd Hd) as ([[c b] v] & Hloop & Hfound);
    [lia|].
  unfold findSettlement. rewrite Hn, Nat2Z.id, Hloop. simpl.
  destruct Hfound as [(_ & _ & Hnone) | (c0 & p0 & -> & Hc0 & Hp0 & -> & Hpay0)].
  - exfalso. apply (Hnone i u); [|exact Hpay]. eapply lookup_lt_Some. exact Hpi.
  - exists c0, p0, v.
    destruct (Z.leb_spec 0 (Z.of_nat c0)) as [_|Hneg]; [auto | lia].
Qed.

Lemma settleDirect_Some (d c : nat) (amt bal : Z) (via : string)
    (st : CashFlowMinimizer) :
  (d < length (people_ st))%nat -> (c < length (people_ st))%nat ->
  exists st', settleDirect d amt c bal via st = Ok st'
    /\ result_ st' = result_ st ++ [(d, c, Z.min amt bal, via)].
Proof.
  intros Hd Hc. unfold settleDirect.
  destruct (lookup_lt_is_Some_2 (people_ st) d Hd) as [pd Hpd].
  rewrite (adjust_Some d _ (emplace_result _ st) pd) by exact Hpd. simpl.
  destruct (lookup_lt_is_Some_2
              (<[d:=adjustBalance (Z.min amt bal) pd]> (people_ st)) c) as [pc Hpc].
  { rewrite length_insert. exact Hc. }
  erewrite adjust_Some by exact Hpc.
  eexists. split; reflexivity.
Qed.

Lemma run_prepared (fuel : nat) (input : list token) :
  run fuel input = (st ← prepared input; settleDebts fuel st).
Proof.
  rewrite run_unfold. unfold prepared.
  destruct (readParticipants initial (mkStream input true)) as [[st1 cin1]| |];
    try reflexivity.
  simpl. destruct (readTransactions st1 cin1) as [[st2 cin2]| |]; reflexivity.
Qed.

(** ** The sum of the balances *)












(** ** [begin()] is the least element *)

Lemma str_lt_irrefl (a : string) : str_lt a a = false.
Proof.
  unfold str_lt. destruct (String_as_OT.compare a a) eqn:E; try reflexivity.
  exfalso. exact (irreflexivity String_as_OT.lt a E).
Qed.

Lemma str_lt_trans (a b c : string) :
  str_lt a b = true -> str_lt b c = true -> str_lt a c = true.
Proof.
  unfold str_lt.
  destruct (String_as_OT.compare a b) eqn:Eab; try discriminate.
  destruct (String_as_OT.compare b c) eqn:Ebc; try discriminate.
  intros _ _.
  assert (String_as_OT.lt a c) as Hac by (exact (transitivity (R := String_as_OT.lt) Eab Ebc)).
  unfold String_as_OT.lt in Hac. rewrite Hac. reflexivity.
Qed.

Lemma foldr_least_min (l : list string) (u v : string) :
  foldr least None l = Some u -> v ∈ l -> str_lt v u = false.
Proof.
  revert u. induction l as [|x l IH]; intros u Hu Hv.
  - apply elem_of_nil in Hv. contradiction.
  - simpl in Hu. destruct (foldr least None l) as [w|] eqn:Hw; simpl in Hu.
    + assert (v ∈ l -> str_lt v w = false) as Hl by (apply IH; reflexivity).
      apply elem_of_cons in Hv.
      destruct (str_lt x w) eqn:Hxw; injection Hu as <-.
      * destruct Hv as [->|Hv]; [apply str_lt_irrefl|].
        destruct (str_lt v x) eqn:Hvx; [|reflexivity].
        rewrite (str_lt_trans v x w Hvx Hxw) in Hl. discriminate (Hl Hv).
      * destruct Hv as [->|Hv]; [exact Hxw | exact (Hl Hv)].
    + injection Hu as <-. apply foldr_least_nil in Hw. subst l.
      apply list_elem_of_singleton in Hv. subst v. apply str_lt_irrefl.
Qed.

(** No element of the set is below the one [begin()] points to. *)
Lemma set_begin_least (s : gset string) (u v : string) :
  set_begin s = Some u -> v ∈ s -> str_lt v u = false.
Proof.
  unfold set_begin. intros Hu Hv. eapply foldr_least_min; [exact Hu|].
  apply elem_of_elements. exact Hv.
Qed.

(** ** The loop of settleDebts *)

Lemma zeros_snoc (ps : list Person) (p : Person) :
  zeros (ps ++ [p]) = (zeros ps + (if (balance_ p =? 0)%Z then 1 else 0))%nat.
Proof.
  unfold zeros. rewrite filter_app, length_app. f_equal.
  rewrite filter_cons, filter_nil.
  destruct (decide (balance_ p = 0)) as [He|Hne].
  - rewrite He. reflexivity.
  - destruct (Z.eqb_spec (balance_ p) 0); [contradiction | reflexivity].
Qed.

Lemma zeros_le (ps : list Person) : (zeros ps <= length ps)%nat.
Proof. apply length_filter. Qed.

Lemma zeros_all (ps : list Person) :
  zeros ps = length ps <-> Forall (fun p => balance_ p = 0) ps.
Proof.
  unfold zeros. induction ps as [|p ps IH]; [split; [constructor | reflexivity]|].
  rewrite filter_cons. destruct (decide (balance_ p = 0)) as [He|Hne]; simpl.
  - rewrite Forall_cons. split.
    + intros [= H]. split; [exact He | apply IH; exact H].
    + intros [_ H]. f_equal. apply IH. exact H.
  - split.
    + intros H. pose proof (length_filter (fun p => balance_ p = 0) ps). lia.
    + intros H. apply Forall_cons in H as [H _]. contradiction.
Qed.

Lemma settledCount_take (st : CashFlowMinimizer) (k : nat) :
  (k <= length (people_ st))%nat ->
  for_ 0 k
    (fun i cnt => p ← at_ (people_ st) i; Ok (if balance_ p =? 0 then cnt + 1 else cnt))
    0
  = Ok (Z.of_nat (zeros (take k (people_ st)))).
Proof.
  induction k as [|k IH]; intros Hk; [reflexivity|].
  rewrite for_snoc, IH by lia. rewrite bind_Ok_l.
  destruct (lookup_lt_is_Some_2 (people_ st) k) as [p Hp]; [lia|].
  change (0 + k)%nat with k. rewrite (at_Some _ _ _ Hp), bind_Ok_l.
  rewrite (take_S_r _ _ _ Hp), zeros_snoc.
  destruct (balance_ p =? 0); f_equal; lia.
Qed.

Lemma settledCount_zeros (st : CashFlowMinimizer) :
  n_ st = Z.of_nat (length (people_ st)) ->
  settledCount st = Ok (Z.of_nat (zeros (people_ st))).
Proof.
  intros Hn. unfold settledCount. rewrite Hn, Nat2Z.id.
  rewrite settledCount_take by lia. rewrite firstn_all. reflexivity.
Qed.

Lemma mutation_n (st st' : CashFlowMinimizer) : mutation st st' -> n_ st' = n_ st.
Proof.
  intros [i j a st1 H | i z st1 H | t].
  - unfold add_debt in H. apply bind_Ok in H as (row & _ & H).
    apply bind_Ok in H as (v & _ & [= <-]). reflexivity.
  - unfold adjust in H. apply bind_Ok in H as (p & _ & [= <-]). reflexivity.
  - reflexivity.
Qed.

Lemma later_n (st st' : CashFlowMinimizer) : later st st' -> n_ st' = n_ st.
Proof.
  induction 1 as [|a b c Hab _ IH]; [reflexivity|].
  rewrite IH. apply mutation_n. exact Hab.
Qed.

Lemma later_length (st st' : CashFlowMinimizer) :
  later st st' -> length (people_ st') = length (people_ st).
Proof.
  intros H. apply later_channels in H. unfold channels in H.
  apply (f_equal length) in H. rewrite !length_fmap in H. exact H.
Qed.

Lemma channels_lookup (st st' : CashFlowMinimizer) (i : nat) (p' : Person) :
  channels st' = channels st -> people_ st' !! i = Some p' ->
  exists p, people_ st !! i = Some p /\ upis_ p = upis_ p'.
Proof.
  unfold channels. intros Hch Hp'.
  assert ((upis_ <$> people_ st') !! i = Some (upis_ p')) as H
    by (rewrite list_lookup_fmap, Hp'; reflexivity).
  rewrite Hch, list_lookup_fmap in H.
  destruct (people_ st !! i) as [p|]; [|discriminate].
  injection H as H. eauto.
Qed.

Lemma settleDirect_result (d c : nat) (amt bal : Z) (via : string)
    (st st' : CashFlowMinimizer) :
  settleDirect d amt c bal via st = Ok st' ->
  result_ st' = result_ st ++ [(d, c, Z.min amt bal, via)].
Proof.
  unfold settleDirect. intros H. apply bind_Ok in H as (st1 & H1 & H2).
  apply bind_Ok in H1 as (p1 & _ & [= <-]). apply bind_Ok in H2 as (p2 & _ & [= <-]).
  reflexivity.
Qed.

Lemma payTreasurer_result (d : nat) (amt : Z) (st st' : CashFlowMinimizer) :
  payTreasurer d amt st = Ok st' ->
  exists pd pt u, people_ st !! d = Some pd /\ people_ st !! 0%nat = Some pt
    /\ set_begin (upis_ pd) = Some u
    /\ result_ st' = result_ st ++ [(d, 0%nat, amt, u)].
Proof.
  unfold payTreasurer. intros H.
  apply bind_Ok in H as (pd & Hpd & H). apply bind_Ok in H as (u & Hu & H).
  apply bind_Ok in H as (st1 & H1 & H2).
  apply bind_Ok in H1 as (pt & Hpt & [= <-]). apply bind_Ok in H2 as (p2 & _ & [= <-]).
  apply at_Ok in Hpd, Hpt. unfold deref_begin in Hu.
  destruct (set_begin (upis_ pd)) as [u'|] eqn:Hb; [|discriminate].
  injection Hu as ->. exists pd, pt, u. auto.
Qed.

Lemma payHighestCreditor_result (st st' : CashFlowMinimizer) :
  payHighestCreditor st = Ok st' ->
  exists pt pfc u, people_ st !! 0%nat = Some pt
    /\ people_ st !! getMaxCreditor st = Some pfc
    /\ set_begin (upis_ pfc) = Some u
    /\ result_ st' = result_ st ++ [(0%nat, getMaxCreditor st, balance_ pt, u)].
Proof.
  unfold payHighestCreditor. intros H.
  apply bind_Ok in H as (pt & Hpt & H). apply bind_Ok in H as (pfc & Hpfc & H).
  apply bind_Ok in H as (u & Hu & H). apply bind_Ok in H as (st1 & H1 & H2).
  apply bind_Ok in H1 as (p1 & _ & [= <-]). apply bind_Ok in H2 as (p2 & _ & [= <-]).
  apply at_Ok in Hpt, Hpfc. unfold deref_begin in Hu.
  destruct (set_begin (upis_ pfc)) as [u'|] eqn:Hb; [|discriminate].
  injection Hu as ->. exists pt, pfc, u. auto.
Qed.

(** A creditor returned by [findSettlement] is payable through the
    identifier returned with it. *)
Lemma findSettlement_found (st : CashFlowMinimizer) (d : nat) (pd : Person)
    (c bal : Z) (via : string) :
  n_ st = Z.of_nat (length (people_ st)) ->
  people_ st !! d = Some pd ->
  findSettlement st d = Ok (c, bal, via) -> 0 <= c ->
  payable st d (Z.to_nat c) via.
Proof.
  intros Hn Hd Hfind Hc.
  destruct (find_loop st d (length (people_ st)) pd Hd) as ([[c0 b0] v0] & Hloop & Hfound);
    [lia|].
  unfold findSettlement in Hfind. rewrite Hn, Nat2Z.id, Hloop, bind_Ok_l in Hfind.
  injection Hfind as <- _ <-.
  destruct Hfound as [(-> & _) | (c1 & p1 & -> & _ & _ & _ & Hpay)]; [lia|].
  rewrite Nat2Z.id. exact Hpay.
Qed.

(** ** getMaxDebtor, getMaxCreditor *)

Lemma min_element_from_first (l pre : list Person) (bi : nat) (b : Person) :
  pre !! bi = Some b ->
  (forall j q, pre !! j = Some q ->
     balance_ b <= balance_ q /\ ((j < bi)%nat -> balance_ b < balance_ q)) ->
  exists p,
    (pre ++ l) !! min_element_from less_balance l (length pre) bi b = Some p
    /\ forall j q, (pre ++ l) !! j = Some q ->
         balance_ p <= balance_ q
         /\ ((j < min_element_from less_balance l (length pre) bi b)%nat ->
             balance_ p < balance_ q).
Proof.
  revert pre bi b. induction l as [|x l IH]; intros pre bi b Hb Hmin.
  - simpl. rewrite app_nil_r. exists b. auto.
  - pose proof (lookup_lt_Some _ _ _ Hb) as Hlt.
    assert (pre ++ x :: l = (pre ++ [x]) ++ l) as Happ
      by (rewrite <- app_assoc; reflexivity).
    assert (S (length pre) = length (pre ++ [x])) as Hlen
      by (rewrite length_app; simpl; lia).
    change (min_element_from less_balance (x :: l) (length pre) bi b)
      with (if balance_ x <? balance_ b
            then min_element_from less_balance l (S (length pre)) (length pre) x
            else min_element_from less_balance l (S (length pre)) bi b).
    destruct (Z.ltb_spec (balance_ x) (balance_ b)) as [Hxb|Hbx];
      rewrite Happ, Hlen;
      [apply (IH (pre ++ [x]) (length pre) x) | apply (IH (pre ++ [x]) bi b)].
    + apply list_lookup_middle. reflexivity.
    + intros j q Hq. apply lookup_snoc_Some in Hq as [[Hj Hq]|[Hj <-]].
      * destruct (Hmin j q Hq). split; lia.
      * split; lia.
    + apply lookup_app_l_Some. exact Hb.
    + intros j q Hq. apply lookup_snoc_Some in Hq as [[Hj Hq]|[Hj <-]].
      * apply Hmin. exact Hq.
      * split; lia.
Qed.

Lemma max_element_from_first (l pre : list Person) (bi : nat) (b : Person) :
  pre !! bi = Some b ->
  (forall j q, pre !! j = Some q ->
     balance_ q <= balance_ b /\ ((j < bi)%nat -> balance_ q < balance_ b)) ->
  exists p,
    (pre ++ l) !! max_element_from less_balance l (length pre) bi b = Some p
    /\ forall j q, (pre ++ l) !! j = Some q ->
         balance_ q <= balance_ p
         /\ ((j < max_element_from less_balance l (length pre) bi b)%nat ->
             balance_ q < balance_ p).
Proof.
  revert pre bi b. induction l as [|x l IH]; intros pre bi b Hb Hmax.
  - simpl. rewrite app_nil_r. exists b. auto.
  - pose proof (lookup_lt_Some _ _ _ Hb) as Hlt.
    assert (pre ++ x :: l = (pre ++ [x]) ++ l) as Happ
      by (rewrite <- app_assoc; reflexivity).
    assert (S (length pre) = length (pre ++ [x])) as Hlen
      by (rewrite length_app; simpl; lia).
    change (max_element_from less_balance (x :: l) (length pre) bi b)
      with (if balance_ b <? balance_ x
            then max_element_from less_balance l (S (length pre)) (length pre) x
            else max_element_from less_balance l (S (length pre)) bi b).
    destruct (Z.ltb_spec (balance_ b) (balance_ x)) as [Hbx|Hxb];
      rewrite Happ, Hlen;
      [apply (IH (pre ++ [x]) (length pre) x) | apply (IH (pre ++ [x]) bi b)].
    + apply list_lookup_middle. reflexivity.
    + intros j q Hq. apply lookup_snoc_Some in Hq as [[Hj Hq]|[Hj <-]].
      * destruct (Hmax j q Hq). split; lia.
      * split; lia.
    + apply lookup_app_l_Some. exact Hb.
    + intros j q Hq. apply lookup_snoc_Some in Hq as [[Hj Hq]|[Hj <-]].
      * apply Hmax. exact Hq.
      * split; lia.
Qed.

(** ** findSettlement: which creditor is selected *)

Lemma findStep_selected (st : CashFlowMinimizer) (d k : nat) (best : Z * Z * string)
    (pd : Person) :
  people_ st !! d = Some pd -> (k < length (people_ st))%nat ->
  selected st d k best ->
  exists best', findStep st d k best = Ok best' /\ selected st d (S k) best'.
Proof.
  intros Hd Hk Hsel. destruct best as [[c b] v].
  destruct (lookup_lt_is_Some_2 (people_ st) k Hk) as [p Hp].
  unfold findStep. rewrite (at_Some _ _ _ Hp), bind_Ok_l.
  assert (selected st d k (c, b, v) -> (forall u, ~ payable st d k u) ->
          selected st d (S k) (c, b, v)) as Hskip.
  { intros [(-> & -> & -> & Hnone)
           | (c0 & p0 & pd0 & -> & Hc0 & Hp0 & Hd0 & -> & Hpos0 & Hvia & Hbest)] Hk'.
    - left. split_and!; try reflexivity. intros i u Hi.
      destruct (decide (i = k)) as [->|Hne]; [apply Hk' | apply Hnone; lia].
    - right. exists c0, p0, pd0. split_and!; try assumption; try reflexivity; [lia|].
      intros i u q Hi Hpay Hq.
      destruct (decide (i = k)) as [->|Hne]; [exfalso; exact (Hk' u Hpay)|].
      apply (Hbest i u q); [lia | exact Hpay | exact Hq]. }
  destruct (Z.leb_spec (balance_ p) 0) as [Hle|Hpos].
  - eexists. split; [reflexivity|]. apply Hskip; [exact Hsel|].
    intros u (p' & pd' & Hp' & _ & Hpos & _). rewrite Hp in Hp'. injection Hp' as <-. lia.
  - rewrite (at_Some _ _ _ Hd), bind_Ok_l. cbv zeta.
    destruct (set_begin (upis_ pd ∩ upis_ p)) as [front|] eqn:Hfront.
    + destruct (Z.ltb_spec b (balance_ p)) as [Hlt|Hge].
      * eexists. split; [reflexivity|]. right. exists k, p, pd.
        split_and!; try assumption; try reflexivity; [lia|].
        intros i u q Hi Hpay Hq.
        destruct (decide (i = k)) as [->|Hne].
        -- rewrite Hp in Hq. injection Hq as <-. split; lia.
        -- destruct Hsel as [(_ & _ & _ & Hnone)
                            | (c0 & p0 & pd0 & _ & Hc0 & Hp0 & Hd0 & -> & Hpos0 & _ & Hbest)].
           ++ exfalso. apply (Hnone i u); [lia | exact Hpay].
           ++ destruct (Hbest i u q) as [Hle _]; [lia | exact Hpay | exact Hq |].
              split; lia.
      * eexists. split; [reflexivity|].
        destruct Hsel as [(-> & -> & _)
                         | (c0 & p0 & pd0 & -> & Hc0 & Hp0 & Hd0 & -> & Hpos0 & Hvia & Hbest)].
        -- pose proof INT_MIN_negative. lia.
        -- right. exists c0, p0, pd0.
           split_and!; try assumption; try reflexivity; [lia|].
           intros i u q Hi Hpay Hq.
           destruct (decide (i = k)) as [->|Hne].
           ++ rewrite Hp in Hq. injection Hq as <-. split; lia.
           ++ apply (Hbest i u q); [lia | exact Hpay | exact Hq].
    + eexists. split; [reflexivity|]. apply Hskip; [exact Hsel|].
      apply set_begin_None in Hfront.
      intros u (p' & pd' & Hp' & Hd' & _ & Hud & Hup).
      rewrite Hp in Hp'. injection Hp' as <-. rewrite Hd in Hd'. injection Hd' as <-.
      assert (u ∈ upis_ pd ∩ upis_ p) as Hin by (apply elem_of_intersection; auto).
      rewrite Hfront in Hin. apply elem_of_empty in Hin. exact Hin.
Qed.

Lemma find_loop_selected (st : CashFlowMinimizer) (d k : nat) (pd : Person) :
  people_ st !! d = Some pd -> (k <= length (people_ st))%nat ->
  exists best, for_ 0 k (findStep st d) (-1, INT_MIN, EmptyString) = Ok best
    /\ selected st d k best.
Proof.
  intros Hd. induction k as [|k IH]; intros Hk.
  - eexists. split; [reflexivity|]. left. split_and!; try reflexivity.
    intros i u Hi. lia.
  - destruct IH as (best & Hloop & Hsel); [lia|].
    destruct (findStep_selected st d k best pd Hd) as (best' & Hstep & Hsel');
      [lia | exact Hsel |].
    exists best'. rewrite for_snoc, Hloop, bind_Ok_l. auto.
Qed.

(** ** Debtors and creditors *)









(** ** Counting settled participants *)



(** ** A direct round *)





(** ** Planning when every two participants share an identifier *)





(** ** The fallback round *)


Lemma adjust_Ok (i : nat) (z : Z) (st st' : CashFlowMinimizer) :
  adjust i z st = Ok st' ->
  exists p, people_ st !! i = Some p
    /\ st' = with_people (<[ i := adjustBalance z p ]> (people_ st)) st.
Proof.
  unfold adjust. intros H. apply bind_Ok in H as (p & Hp & [= <-]).
  apply at_Ok in Hp. eauto.
Qed.



(** ** What registration stores *)






(** ** What the debt records add up to *)








(** ** Which exception, and when *)









(** ** The plan names participants *)

Lemma in_range_length (n k : nat) (t : Transfer) : n = k -> in_range n t -> in_range k t.
Proof. intros ->. auto. Qed.





(** ** Identifiers that are not there *)



Lemma not_raises_printResults (st : CashFlowMinimizer) : ~ raises (printResults st).
Proof.
  unfold printResults. generalize (result_ st) at 1. intros ts.
  generalize (nl +:+ "=== Settlement Summary ===" +:+ nl
     +:+ setw_left 15 "Payer" +:+ setw_left 15 "Payee" +:+ setw_left 8 "Amount"
     +:+ "UPI" +:+ nl +:+ rule +:+ nl).
  induction ts as [|[[[d c] a] u] ts IH]; intros out; simpl.
  - apply not_raises_Ok.
  - unfold printRow. quiet. apply IH.
Qed.



(** ** What planning leaves alone *)

Lemma untouched_refl (st : CashFlowMinimizer) : untouched st st.
Proof. unfold untouched. split_and!; try reflexivity. exists []. rewrite app_nil_r. reflexivity. Qed.

Lemma untouched_trans (a b c : CashFlowMinimizer) :
  untouched a b -> untouched b c -> untouched a c.
Proof.
  intros (Hn1 & Hi1 & Hm1 & Hnm1 & Hu1 & new1 & Hr1) (Hn2 & Hi2 & Hm2 & Hnm2 & Hu2 & new2 & Hr2).
  unfold untouched. split_and!; try congruence.
  exists (new1 ++ new2). rewrite Hr2, Hr1, app_assoc. reflexivity.
Qed.

Lemma untouched_adjust (i : nat) (z : Z) (st st' : CashFlowMinimizer) :
  adjust i z st = Ok st' -> untouched st st'.
Proof.
  intros H. apply adjust_Ok in H as (p & Hp & ->).
  unfold untouched. simpl. split_and!; try reflexivity.
  - rewrite list_fmap_insert. simpl.
    apply list_insert_id. rewrite list_lookup_fmap, Hp. reflexivity.
  - rewrite list_fmap_insert. simpl.
    apply list_insert_id. rewrite list_lookup_fmap, Hp. reflexivity.
  - exists []. rewrite app_nil_r. reflexivity.
Qed.

Lemma untouched_emplace (t : Transfer) (st : CashFlowMinimizer) :
  untouched st (emplace_result t st).
Proof. unfold untouched. simpl. split_and!; try reflexivity. exists [t]. reflexivity. Qed.

Lemma untouched_settleRound (st st' : CashFlowMinimizer) :
  settleRound st = Ok st' -> untouched st st'.
Proof.
  unfold settleRound. intros H.
  apply bind_Ok in H as (pd & _ & H).
  apply bind_Ok in H as ([[c bal] via] & _ & H).
  destruct (0 <=? c).
  - unfold settleDirect in H. apply bind_Ok in H as (st1 & H1 & H2).
    eapply untouched_trans; [apply untouched_emplace|].
    eapply untouched_trans; eapply untouched_adjust; eassumption.
  - unfold settleFallback in H. apply bind_Ok in H as (st1 & H1 & H2).
    unfold payTreasurer in H1.
    apply bind_Ok in H1 as (pd1 & _ & H1). apply bind_Ok in H1 as (u1 & _ & H1).
    apply bind_Ok in H1 as (sta & Ha & Hb).
    unfold payHighestCreditor in H2.
    apply bind_Ok in H2 as (pt & _ & H2). apply bind_Ok in H2 as (pfc & _ & H2).
    apply bind_Ok in H2 as (u2 & _ & H2). apply bind_Ok in H2 as (stb & Hc & Hd).
    eapply untouched_trans; [apply untouched_emplace|].
    eapply untouched_trans; [eapply untouched_adjust; exact Ha|].
    eapply untouched_trans; [eapply untouched_adjust; exact Hb|].
    eapply untouched_trans; [apply untouched_emplace|].
    eapply untouched_trans; eapply untouched_adjust; eassumption.
Qed.

(** * The claims *)

Lemma stuck_forever (fuel : nat) (r : list Transfer) :
  settleLoop fuel (with_result r (after_first_round scenario_stuck)) = Ok None.
Proof.
  revert r. induction fuel as [|fuel IH]; intros r.
  - vm_compute. reflexivity.
  - rewrite settleLoop_S.
    assert (settledCount (with_result r (after_first_round scenario_stuck)) = Ok 2) as ->
      by (vm_compute; reflexivity).
    assert (settleRound (with_result r (after_first_round scenario_stuck))
            = Ok (with_result (r ++ [(0%nat, 2%nat, 0, "C")])
                    (after_first_round scenario_stuck))) as ->
      by (vm_compute; reflexivity).
    simpl. apply IH.
Qed.

(** C1. On Treasurer T (A), P1 (B), P2 (C) with the debts "T owes P2 1"
    and "P1 owes P2 7" the input is accepted and the settlement loop never
    exits.  The first round is a fallback for P1 that forwards 6 of the 7
    received and leaves the balances 0, 0, 2; every later round takes the
    Treasurer, whose balance is 0, as max debtor, appends a transfer of
    amount 0 to P2 and changes no balance. *)
Theorem settlement_never_ends :
  well_formed scenario_stuck
  /\ exists st0 st1,
       prepared scenario_stuck = Ok st0
       /\ balances st0 = [-1; -7; 8]
       /\ settleRound st0 = Ok st1
       /\ result_ st1 = [(1%nat, 0%nat, 7, "B"); (0%nat, 2%nat, 6, "C")]
       /\ balances st1 = [0; 0; 2]
       /\ (forall r, settleRound (with_result r st1)
                     = Ok (with_result (r ++ [(0%nat, 2%nat, 0, "C")]) st1))
       /\ forall fuel, run fuel scenario_stuck = Ok None.
Proof.
  split; [eapply reading_accepts; vm_compute; reflexivity|].
  exists (planning_start scenario_stuck), (after_first_round scenario_stuck).
  split_and!; try (vm_compute; reflexivity).
  intros fuel. rewrite run_prepared.
  assert (prepared scenario_stuck = Ok (planning_start scenario_stuck)) as ->
    by (vm_compute; reflexivity).
  rewrite bind_Ok_l. unfold settleDebts.
  destruct fuel as [|fuel]; [vm_compute; reflexivity|].
  rewrite settleLoop_S.
  assert (settledCount (planning_start scenario_stuck) = Ok 0) as ->
    by (vm_compute; reflexivity).
  assert (settleRound (planning_start scenario_stuck)
          = Ok (with_result [(1%nat, 0%nat, 7, "B"); (0%nat, 2%nat, 6, "C")]
                  (after_first_round scenario_stuck))) as ->
    by (vm_compute; reflexivity).
  simpl. apply stuck_forever.
Qed.




(** C3. On Treasurer T (A), P1 (B), P2 (C) with the debts "T owes P2 1"
    and "P1 owes P2 7", an accepted input, the second round is a direct
    round for the Treasurer, whose balance is 0: the third transfer of the
    plan, from the Treasurer to P2 through C, has amount 0. *)
Theorem zero_amount_transfer :
  well_formed scenario_stuck
  /\ exists st0 st1 st2,
       prepared scenario_stuck = Ok st0
       /\ settleRound st0 = Ok st1
       /\ balances st1 = [0; 0; 2]
       /\ getMaxDebtor st1 = 0%nat
       /\ findSettlement st1 0 = Ok (2, 2, "C")
       /\ settleRound st1 = Ok st2
       /\ result_ st2
          = [(1%nat, 0%nat, 7, "B"); (0%nat, 2%nat, 6, "C"); (0%nat, 2%nat, 0, "C")]
       /\ amount <$> result_ st2 = [7; 6; 0].
Proof.
  split; [eapply reading_accepts; vm_compute; reflexivity|].
  do 3 eexists. split_and!; vm_compute; reflexivity.
Qed.

(** C4. On Treasurer T (A), P1 (B), P2 (C) with the debt "P1 owes P2 7"
    the plan has three transfers.  The first round is a fallback for P1;
    after its first transfer the balances are 7, 0, 7, the recomputed
    max-creditor is the Treasurer itself (it ties with P2 and comes
    first), and a transfer from the Treasurer to itself is recorded, which
    leaves the Treasurer with balance -7.  A second round then pays P2 by
    the direct branch. *)
Theorem fallback_scenario_plan :
  exists st0 st1 st2 st3,
    prepared scenario_fallback = Ok st0
    /\ balances st0 = [0; -7; 7]
    /\ getMaxDebtor st0 = 1%nat
    /\ findSettlement st0 1 = Ok (-1, 0, EmptyString)
    /\ payTreasurer 1 7 st0 = Ok st1
    /\ balances st1 = [7; 0; 7]
    /\ getMaxCreditor st1 = 0%nat
    /\ payHighestCreditor st1 = Ok st2
    /\ settleRound st0 = Ok st2
    /\ result_ st2 = [(1%nat, 0%nat, 7, "B"); (0%nat, 0%nat, 7, "A")]
    /\ balances st2 = [-7; 0; 7]
    /\ run 2 scenario_fallback = Ok (Some st3)
    /\ result_ st3
       = [(1%nat, 0%nat, 7, "B"); (0%nat, 0%nat, 7, "A"); (0%nat, 2%nat, 7, "C")]
    /\ balances st3 = [0; 0; 0].
Proof.
  do 4 eexists. split_and!; vm_compute; reflexivity.
Qed.

(** C5. When registration completes the Treasurer supports every
    identifier of every participant, and no elementary write performed
    afterwards (while debts are read, balances netted and transfers
    planned) changes any identifier set, so the property holds at every
    later point. *)
Theorem treasurer_universality (input : list token) (st st' : CashFlowMinimizer)
    (cin : istream) :
  readParticipants initial (mkStream input true) = Ok (st, cin) ->
  later st st' ->
  treasurer_universal (people_ st)
  /\ channels st' = channels st
  /\ treasurer_universal (people_ st').
Proof.
  intros Hread Hlater.
  destruct (readParticipants_Ok _ _ _ Hread) as (n & _ & _ & _ & Huni & _).
  pose proof (later_channels _ _ Hlater) as Hch.
  split_and!; [exact Huni | exact Hch |].
  eapply treasurer_universal_channels; [exact Hch | exact Huni].
Qed.

Lemma treasurer_universality_witness :
  treasurer_universal (people_ (registry_of scenario_fallback))
  /\ channels (planning_start scenario_fallback) = channels (registry_of scenario_fallback)
  /\ treasurer_universal (people_ (planning_start scenario_fallback)).
Proof.
  apply (treasurer_universality scenario_fallback
           (registry_of scenario_fallback) (planning_start scenario_fallback)
           (stream_of scenario_fallback)).
  - vm_compute. reflexivity.
  - apply prepared_later. vm_compute. reflexivity.
Defined.



(** C7. When some participant with a positive balance shares an
    identifier with the current max debtor, the round is the direct
    branch: it appends exactly one transfer, from the debtor to a
    creditor that shares the recorded identifier with it, and the fallback
    through the Treasurer is not run. *)
Theorem direct_preference (st : CashFlowMinimizer) (i : nat) (u : string) :
  n_ st = Z.of_nat (length (people_ st)) ->
  payable st (getMaxDebtor st) i u ->
  exists c bal via pd st',
    people_ st !! getMaxDebtor st = Some pd
    /\ payable st (getMaxDebtor st) c via
    /\ settleRound st = settleDirect (getMaxDebtor st) (- balance_ pd) c bal via st
    /\ settleRound st = Ok st'
    /\ result_ st'
       = result_ st ++ [(getMaxDebtor st, c, Z.min (- balance_ pd) bal, via)].
Proof.
  intros Hn Hpay.
  destruct (findSettlement_payable st _ i u Hn Hpay) as (c & p & via & Hfind & Hc & Hpayc).
  pose proof Hpay as (_ & pd & _ & Hd & _).
  assert (settleRound st
          = settleDirect (getMaxDebtor st) (- balance_ pd) c (balance_ p) via st) as Hround.
  { unfold settleRound. rewrite (at_Some _ _ _ Hd). simpl. rewrite Hfind. simpl.
    destruct (Z.leb_spec 0 (Z.of_nat c)) as [_|Hneg]; [|lia].
    rewrite Nat2Z.id. reflexivity. }
  destruct (settleDirect_Some (getMaxDebtor st) c (- balance_ pd) (balance_ p) via st)
    as (st' & Hdirect & Hres).
  { eapply lookup_lt_Some. exact Hd. } { eapply lookup_lt_Some. exact Hc. }
  exists c, (balance_ p), via, pd, st'.
  split_and!; try assumption. rewrite Hround. exact Hdirect.
Qed.

Lemma direct_preference_witness :
  exists c bal via pd st',
    people_ (planning_start scenario_direct)
      !! getMaxDebtor (planning_start scenario_direct) = Some pd
    /\ payable (planning_start scenario_direct)
         (getMaxDebtor (planning_start scenario_direct)) c via
    /\ settleRound (planning_start scenario_direct)
       = settleDirect (getMaxDebtor (planning_start scenario_direct))
           (- balance_ pd) c bal via (planning_start scenario_direct)
    /\ settleRound (planning_start scenario_direct) = Ok st'
    /\ result_ st'
       = result_ (planning_start scenario_direct)
         ++ [(getMaxDebtor (planning_start scenario_direct), c,
              Z.min (- balance_ pd) bal, via)].
Proof.
  apply (direct_preference (planning_start scenario_direct) 1 "B").
  - vm_compute. reflexivity.
  - unfold payable. eexists. eexists. split_and!.
    + vm_compute. reflexivity.
    + vm_compute. reflexivity.
    + vm_compute. reflexivity.
    + apply (bool_decide_unpack _). vm_compute. exact I.
    + apply (bool_decide_unpack _). vm_compute. exact I.
Defined.


(** The messages of the four kinds of rejection, and an accepted input. *)
Example rejects_single_participant :
  run 0 [num 1; word "T"; num 0; num 0] = Throw "At least 2 participants required.".
Proof. vm_compute. reflexivity. Qed.

Example rejects_negative_count :
  run 0 [num 2; word "T"; num (-1); word "P"; num 0; num 0] = Throw "Invalid entry.".
Proof. vm_compute. reflexivity. Qed.

Example rejects_negative_debt_count :
  run 0 [num 2; word "T"; num 0; word "P"; num 0; num (-1)] = Throw "Invalid number.".
Proof. vm_compute. reflexivity. Qed.

Example rejects_zero_amount :
  run 0 [num 2; word "T"; num 0; word "P"; num 0; num 1; word "P"; word "T"; num 0]
  = Throw "Invalid debt entry.".
Proof. vm_compute. reflexivity. Qed.

Example rejects_unknown_name :
  run 0 [num 2; word "T"; num 0; word "P"; num 0; num 1; word "Q"; word "T"; num 5]
  = Throw "Invalid debt entry.".
Proof. vm_compute. reflexivity. Qed.

Example rejects_truncated_input :
  run 0 [num 2; word "T"; num 2; word "A"] = Throw "Invalid entry.".
Proof. vm_compute. reflexivity. Qed.

Example accepts_direct_scenario :
  well_formed scenario_direct
  /\ exists st, run 1 scenario_direct = Ok (Some st)
       /\ result_ st = [(2%nat, 1%nat, 10, "B")].
Proof.
  split.
  - eapply reading_accepts; vm_compute; reflexivity.
  - eexists. split; vm_compute; reflexivity.
Qed.

(** C9. A debt record whose debtor and creditor are the same registered
    participant, with a positive amount, is accepted by [readDebt]; the
    matrix it leaves gives every participant the same net balance as the
    matrix before it, and netting either of them yields the same
    balances. *)
Theorem self_debt_is_neutral (n : nat) (st : CashFlowMinimizer)
    (td tc ta : token) (a : Z) (i : nat) (r : list token) :
  registered n st ->
  idx_ st !! text td = Some i -> text tc = text td ->
  as_int ta = Some a -> 0 < a ->
  exists st', readDebt (st, mkStream (td :: tc :: ta :: r) true) = Ok (st', mkStream r true)
    /\ (forall k, net (debtMatrix_ st') n k = net (debtMatrix_ st) n k)
    /\ exists s s', computeNetBalances st = Ok s /\ computeNetBalances st' = Ok s'
         /\ balances s' = balances s.
Proof.
  intros Hreg Hi Hc Ha Hpos.
  assert (idx_ st !! text tc = Some i) as Hj by (rewrite Hc; exact Hi).
  destruct (readDebt_tokens n st td tc ta a i i r Hreg Hi Hj Ha Hpos)
    as (m & Hread & Hadd & Hsq).
  exists (with_matrix m st). split; [exact Hread|].
  assert (forall k, net m n k = net (debtMatrix_ st) n k) as Hnet.
  { intros k. apply (net_self_debt n i a st (with_matrix m st) k Hadd). }
  split; [exact Hnet|].
  destruct Hreg as (Hn & Hlen & Hsq0 & _ & _).
  exists (with_people (netted (debtMatrix_ st) n n (people_ st)) st),
         (with_people (netted m n n (people_ st)) (with_matrix m st)).
  split_and!.
  - apply computeNetBalances_netted; assumption.
  - apply (computeNetBalances_netted n (with_matrix m st)); assumption.
  - unfold balances, netted. rewrite !people_with_people. f_equal.
    apply imap_ext. intros k p _. simpl.
    destruct (decide (k < n)%nat); [|reflexivity]. rewrite Hnet. reflexivity.
Qed.

Lemma self_debt_is_neutral_witness :
  exists st', readDebt (registry_of scenario_self_debt,
                        mkStream [word "P1"; word "P1"; num 4] true)
              = Ok (st', mkStream [] true)
    /\ (forall k, net (debtMatrix_ st') 3 k
                  = net (debtMatrix_ (registry_of scenario_self_debt)) 3 k)
    /\ exists s s', computeNetBalances (registry_of scenario_self_debt) = Ok s
         /\ computeNetBalances st' = Ok s'
         /\ balances s' = balances s.
Proof.
  apply (self_debt_is_neutral 3 (registry_of scenario_self_debt)
           (word "P1") (word "P1") (num 4) 4 1 []).
  - unfold registered, square. split_and!.
    + vm_compute. reflexivity.
    + vm_compute. reflexivity.
    + vm_compute. reflexivity.
    + vm_compute. repeat constructor.
    + apply (bool_decide_unpack _). vm_compute. exact I.
    + vm_compute. repeat constructor.
  - vm_compute. reflexivity.
  - reflexivity.
  - reflexivity.
  - lia.
Defined.

(** C10. A count of zero identifiers is accepted, and on Treasurer T and
    P, both without identifiers, with the debt "P owes T 5", the planner
    takes the fallback branch for the debtor P, whose identifier set is
    empty: [*people_[d].upis().begin()] dereferences [end()]. *)
Theorem fallback_dereferences_empty_set :
  well_formed scenario_no_upi
  /\ (exists st, prepared scenario_no_upi = Ok st
        /\ balances st = [5; -5]
        /\ channels st = [∅; ∅]
        /\ getMaxDebtor st = 1%nat
        /\ findSettlement st 1 = Ok (-1, 0, EmptyString)
        /\ payTreasurer 1 5 st = Undefined
        /\ settleRound st = Undefined)
  /\ forall fuel, run (S fuel) scenario_no_upi = Undefined.
Proof.
  split_and!.
  - eapply reading_accepts; vm_compute; reflexivity.
  - eexists. split_and!; vm_compute; reflexivity.
  - intros fuel. rewrite run_prepared.
    assert (prepared scenario_no_upi = Ok (planning_start scenario_no_upi)) as ->
      by (vm_compute; reflexivity).
    rewrite bind_Ok_l. unfold settleDebts. rewrite settleLoop_S.
    assert (settledCount (planning_start scenario_no_upi) = Ok 0) as ->
      by (vm_compute; reflexivity).
    assert (settleRound (planning_start scenario_no_upi) = Undefined) as ->
      by (vm_compute; reflexivity).
    reflexivity.
Qed.

(** * Further properties of the program *)

(** X1. Termination & correctness, the part that holds: whenever the loop
    of [settleDebts] exits, every participant's balance is zero. *)
Theorem exit_means_settled (fuel : nat) (st st' : CashFlowMinimizer) :
  n_ st = Z.of_nat (length (people_ st)) ->
  settleLoop fuel st = Ok (Some st') ->
  all_settled st'.
Proof.
  revert st. induction fuel as [|fuel IH]; intros st Hn Hloop.
  - simpl in Hloop. rewrite (settledCount_zeros st Hn), bind_Ok_l in Hloop.
    destruct (Z.ltb_spec (Z.of_nat (zeros (people_ st))) (n_ st)) as [Hlt|Hge];
      [discriminate|].
    injection Hloop as <-. apply zeros_all.
    pose proof (zeros_le (people_ st)). lia.
  - rewrite settleLoop_S, (settledCount_zeros st Hn), bind_Ok_l in Hloop.
    destruct (Z.ltb_spec (Z.of_nat (zeros (people_ st))) (n_ st)) as [Hlt|Hge].
    + apply bind_Ok in Hloop as (st1 & Hround & Hrest).
      apply settleRound_later in Hround.
      apply (IH st1); [|exact Hrest].
      rewrite (later_n _ _ Hround), (later_length _ _ Hround). exact Hn.
    + injection Hloop as <-. apply zeros_all.
      pose proof (zeros_le (people_ st)). lia.
Qed.

Lemma exit_means_settled_witness : all_settled (after_first_round scenario_direct).
Proof.
  apply (exit_means_settled 1 (planning_start scenario_direct)).
  - vm_compute. reflexivity.
  - vm_compute. reflexivity.
Defined.

(** X2. Idempotent replanning: from a state in which every balance is
    zero the loop exits at once, in the same state, so no transfer is
    emitted. *)
Theorem replanning_is_idempotent (fuel : nat) (st : CashFlowMinimizer) :
  n_ st = Z.of_nat (length (people_ st)) ->
  all_settled st ->
  settleLoop fuel st = Ok (Some st).
Proof.
  intros Hn Hall. apply zeros_all in Hall.
  destruct fuel as [|fuel].
  - simpl. rewrite (settledCount_zeros st Hn), bind_Ok_l, Hall, <- Hn.
    rewrite Z.ltb_irrefl. reflexivity.
  - rewrite settleLoop_S, (settledCount_zeros st Hn), bind_Ok_l, Hall, <- Hn.
    rewrite Z.ltb_irrefl. reflexivity.
Qed.

Lemma replanning_is_idempotent_witness :
  settleLoop 3 (after_first_round scenario_direct)
  = Ok (Some (after_first_round scenario_direct)).
Proof.
  apply (replanning_is_idempotent 3 (after_first_round scenario_direct)).
  - vm_compute. reflexivity.
  - vm_compute. repeat constructor.
Defined.

(** X3. Transfer validity, the part that holds: under Treasurer
    universality every transfer a completed round records names an
    identifier that both its payer and its payee support. *)
Theorem transfer_channel_valid (st st' : CashFlowMinimizer) :
  n_ st = Z.of_nat (length (people_ st)) ->
  treasurer_universal (people_ st) ->
  settleRound st = Ok st' ->
  exists new, result_ st' = result_ st ++ new /\ Forall (supported st) new.
Proof.
  intros Hn Huni Hround. unfold settleRound in Hround.
  apply bind_Ok in Hround as (pd & Hpd & Hround). apply at_Ok in Hpd.
  apply bind_Ok in Hround as ([[c bal] via] & Hfind & Hround).
  destruct (Z.leb_spec 0 c) as [Hc|Hc].
  - pose proof (findSettlement_found st _ pd c bal via Hn Hpd Hfind Hc)
      as (p & pd' & Hp & Hpd' & _ & Hud & Hup).
    eexists. split; [eapply settleDirect_result; exact Hround|].
    constructor; [|constructor]. exists pd', p. auto.
  - unfold settleFallback in Hround. apply bind_Ok in Hround as (st1 & H1 & H2).
    pose proof (later_channels _ _ (payTreasurer_later _ _ _ _ H1)) as Hch.
    destruct (payTreasurer_result _ _ _ _ H1) as (pd1 & pt & u1 & Hpd1 & Hpt & Hu1 & Hr1).
    destruct (payHighestCreditor_result _ _ H2) as (pt' & pfc' & u2 & Hpt' & Hpfc' & Hu2 & Hr2).
    destruct (channels_lookup _ _ _ _ Hch Hpfc') as (pfc & Hpfc & Hupfc).
    apply set_begin_elem in Hu1, Hu2.
    exists [(getMaxDebtor st, 0%nat, - balance_ pd, u1);
            (0%nat, getMaxCreditor st1, balance_ pt', u2)].
    split; [rewrite Hr2, Hr1, <- app_assoc; reflexivity|].
    constructor; [|constructor; [|constructor]].
    + exists pd1, pt. split_and!; try assumption.
      apply (Huni pt pd1 (getMaxDebtor st) Hpt Hpd1). exact Hu1.
    + exists pt, pfc. rewrite Hupfc. split_and!; try assumption.
      apply (Huni pt pfc (getMaxCreditor st1) Hpt Hpfc). rewrite Hupfc. exact Hu2.
Qed.

Lemma transfer_channel_valid_witness :
  exists new,
    result_ (after_first_round scenario_fallback)
    = result_ (planning_start scenario_fallback) ++ new
    /\ Forall (supported (planning_start scenario_fallback)) new.
Proof.
  apply (transfer_channel_valid (planning_start scenario_fallback)).
  - vm_compute. reflexivity.
  - apply (treasurer_universal_channels (people_ (registry_of scenario_fallback))).
    + vm_compute. reflexivity.
    + destruct (readParticipants_Ok scenario_fallback (registry_of scenario_fallback)
                  (stream_of scenario_fallback)) as (n & _ & _ & _ & Huni & _);
        [vm_compute; reflexivity | exact Huni].
  - vm_compute. reflexivity.
Defined.

(** X4. The max debtor is the first participant with the least balance,
    and the max creditor the first participant with the greatest balance:
    ties go to the lowest index, so to the Treasurer when it is among
    them. *)
Theorem extremes_are_first (st : CashFlowMinimizer) :
  people_ st <> [] ->
  (exists p, people_ st !! getMaxDebtor st = Some p
     /\ forall j q, people_ st !! j = Some q ->
          balance_ p <= balance_ q
          /\ ((j < getMaxDebtor st)%nat -> balance_ p < balance_ q))
  /\ (exists p, people_ st !! getMaxCreditor st = Some p
        /\ forall j q, people_ st !! j = Some q ->
             balance_ q <= balance_ p
             /\ ((j < getMaxCreditor st)%nat -> balance_ q < balance_ p)).
Proof.
  unfold getMaxDebtor, getMaxCreditor, min_element, max_element.
  destruct (people_ st) as [|x l]; [congruence|]. intros _.
  assert (forall j q, [x] !! j = Some q -> q = x /\ j = 0%nat) as Hone.
  { intros j q Hq. destruct j as [|j]; [injection Hq as <-; auto | discriminate]. }
  split.
  - apply (min_element_from_first l [x] 0 x); [reflexivity|].
    intros j q Hq. destruct (Hone j q Hq) as [-> ->]. split; lia.
  - apply (max_element_from_first l [x] 0 x); [reflexivity|].
    intros j q Hq. destruct (Hone j q Hq) as [-> ->]. split; lia.
Qed.

Lemma extremes_are_first_witness :
  (exists p, people_ (planning_start scenario_direct)
               !! getMaxDebtor (planning_start scenario_direct) = Some p
     /\ forall j q, people_ (planning_start scenario_direct) !! j = Some q ->
          balance_ p <= balance_ q
          /\ ((j < getMaxDebtor (planning_start scenario_direct))%nat ->
              balance_ p < balance_ q))
  /\ (exists p, people_ (planning_start scenario_direct)
                  !! getMaxCreditor (planning_start scenario_direct) = Some p
        /\ forall j q, people_ (planning_start scenario_direct) !! j = Some q ->
             balance_ q <= balance_ p
             /\ ((j < getMaxCreditor (planning_start scenario_direct))%nat ->
                 balance_ q < balance_ p)).
Proof.
  apply (extremes_are_first (planning_start scenario_direct)).
  vm_compute. discriminate.
Defined.

(** X5. [findSettlement] returns [(-1, 0, "")] when no participant with a
    positive balance shares an identifier with the debtor.  Otherwise it
    returns the creditor with the greatest balance among those that do,
    the one with the lowest index on a tie, together with that balance and
    the least identifier (in the order of [std::string]) the two have in
    common. *)
Theorem findSettlement_selects (st : CashFlowMinimizer) (d : nat) (pd : Person) :
  n_ st = Z.of_nat (length (people_ st)) ->
  people_ st !! d = Some pd ->
  (findSettlement st d = Ok (-1, 0, EmptyString)
   /\ forall i u, ~ payable st d i u)
  \/ (exists c p via,
        findSettlement st d = Ok (Z.of_nat c, balance_ p, via)
        /\ people_ st !! c = Some p /\ 0 < balance_ p
        /\ via ∈ upis_ pd /\ via ∈ upis_ p
        /\ (forall v, v ∈ upis_ pd -> v ∈ upis_ p -> str_lt v via = false)
        /\ forall i u q, payable st d i u -> people_ st !! i = Some q ->
             balance_ q <= balance_ p /\ ((i < c)%nat -> balance_ q < balance_ p)).
Proof.
  intros Hn Hd.
  destruct (find_loop_selected st d (length (people_ st)) pd Hd)
    as ([[c b] v] & Hloop & Hsel); [lia|].
  unfold findSettlement. rewrite Hn, Nat2Z.id, Hloop, bind_Ok_l.
  destruct Hsel as [(-> & -> & -> & Hnone)
                   | (c0 & p0 & pd0 & -> & Hc0 & Hp0 & Hd0 & -> & Hpos & Hvia & Hbest)].
  - left. split; [reflexivity|]. intros i u Hpay. apply (Hnone i u); [|exact Hpay].
    destruct Hpay as (p & _ & Hp & _). eapply lookup_lt_Some. exact Hp.
  - right. rewrite Hd in Hd0. injection Hd0 as <-.
    exists c0, p0, v.
    destruct (Z.leb_spec 0 (Z.of_nat c0)) as [_|Hneg]; [|lia].
    pose proof (set_begin_elem _ _ Hvia) as Hin.
    apply elem_of_intersection in Hin as [Hin1 Hin2].
    split_and!; try assumption; try reflexivity.
    + intros w Hw1 Hw2. apply (set_begin_least _ _ _ Hvia).
      apply elem_of_intersection. auto.
    + intros i u q Hpay Hq. apply (Hbest i u q); [|exact Hpay|exact Hq].
      eapply lookup_lt_Some. exact Hq.
Qed.

Lemma findSettlement_selects_witness :
  (findSettlement (planning_start scenario_shared) 1 = Ok (-1, 0, EmptyString)
   /\ forall i u, ~ payable (planning_start scenario_shared) 1 i u)
  \/ (exists c p via,
        findSettlement (planning_start scenario_shared) 1 = Ok (Z.of_nat c, balance_ p, via)
        /\ people_ (planning_start scenario_shared) !! c = Some p /\ 0 < balance_ p
        /\ via ∈ upis_ (mkPerson "P1" (-10) {[ "A"; "B" ]}) /\ via ∈ upis_ p
        /\ (forall v, v ∈ upis_ (mkPerson "P1" (-10) {[ "A"; "B" ]}) -> v ∈ upis_ p ->
            str_lt v via = false)
        /\ forall i u q, payable (planning_start scenario_shared) 1 i u ->
             people_ (planning_start scenario_shared) !! i = Some q ->
             balance_ q <= balance_ p /\ ((i < c)%nat -> balance_ q < balance_ p)).
Proof.
  apply (findSettlement_selects (planning_start scenario_shared) 1).
  - vm_compute. reflexivity.
  - vm_compute. reflexivity.
Defined.



























(** X16. What planning leaves alone.  The loop of [settleDebts] changes
    balances and appends transfers to the plan, nothing else: the count,
    the names and their indices, the identifiers of every participant and
    the debt matrix are what they were, and the transfers already in the
    plan are still there, in place. *)
Theorem planning_only_moves_balances (fuel : nat) (st st' : CashFlowMinimizer) :
  settleLoop fuel st = Ok (Some st') ->
  n_ st' = n_ st /\ idx_ st' = idx_ st /\ debtMatrix_ st' = debtMatrix_ st
  /\ name_ <$> people_ st' = name_ <$> people_ st
  /\ upis_ <$> people_ st' = upis_ <$> people_ st
  /\ exists new, result_ st' = result_ st ++ new.
Proof.
  change (settleLoop fuel st = Ok (Some st') -> untouched st st').
  revert st. induction fuel as [|fuel IH]; intros st Hloop.
  - simpl in Hloop. apply bind_Ok in Hloop as (cnt & _ & Hloop).
    destruct (cnt <? n_ st); [discriminate|]. injection Hloop as <-. apply untouched_refl.
  - rewrite settleLoop_S in Hloop. apply bind_Ok in Hloop as (cnt & _ & Hloop).
    destruct (cnt <? n_ st).
    + apply bind_Ok in Hloop as (st1 & H1 & H2).
      eapply untouched_trans; [eapply untouched_settleRound; exact H1 | apply IH; exact H2].
    + injection Hloop as <-. apply untouched_refl.
Qed.

Lemma planning_only_moves_balances_witness :
  n_ (finished 3 scenario_shared) = n_ (planning_start scenario_shared)
  /\ idx_ (finished 3 scenario_shared) = idx_ (planning_start scenario_shared)
  /\ debtMatrix_ (finished 3 scenario_shared) = debtMatrix_ (planning_start scenario_shared)
  /\ name_ <$> people_ (finished 3 scenario_shared)
     = name_ <$> people_ (planning_start scenario_shared)
  /\ upis_ <$> people_ (finished 3 scenario_shared)
     = upis_ <$> people_ (planning_start scenario_shared)
  /\ exists new, result_ (finished 3 scenario_shared)
                 = result_ (planning_start scenario_shared) ++ new.
Proof.
  apply (planning_only_moves_balances 3 (planning_start scenario_shared)
           (finished 3 scenario_shared)).
  vm_compute. reflexivity.
Defined.
